(** * Clavis: the validation framework and the validating store decorator

    A shallow embedding of
    - [internal/model/validation]: [Context], [ValidationError],
      [ValidationResult];
    - [internal/model/validation/validators]: [Validator], [ValidatorChain],
      the string validator factories;
    - [internal/store/validation]: the key and value adapters, the default
      rule sets and the [ValidatedStore] decorator.

    Go strings are byte strings ([string]); [len] counts bytes.  A Go slice
    [[]byte] is [option (list byte)], [None] being the nil slice.  Closures
    handed to the framework (validators, the inner store) may have effects:
    they are state transformers over an abstract world [W]. *)

From stdpp Require Import base option list strings gmap fin_maps pretty.
From Stdlib Require Import ZArith Lia Ascii String.

Local Open Scope string_scope.
Local Open Scope Z_scope.

(** ** Go values *)

(** An [interface{}] value, restricted to the dynamic types that the
    validation code stores in it. *)
Inductive any : Type :=
  | AnyNil
  | AnyString (s : string)
  | AnyInt (z : Z).

Abbreviation bytes := (option (list Byte.byte)).

(** [len] of a string and of a byte slice. *)
Definition len (s : string) : Z := Z.of_nat (String.length s).

Definition len_bytes (b : bytes) : Z :=
  match b with
  | None => 0
  | Some l => Z.of_nat (List.length l)
  end.

(** ** package fmt *)

(** A double quote character, as a string. *)
Definition dquote : string := String "034" EmptyString.

(** The verb [%d]. *)
Definition fmt_d (z : Z) : string := pretty z.

(** The verb [%v]. *)
Definition fmt_v (v : any) : string :=
  match v with
  | AnyNil => "<nil>"
  | AnyString s => s
  | AnyInt z => fmt_d z
  end.

(** ** package strings *)

Definition str (l : list N) : list ascii := List.map ascii_of_N l.

(** The encodings of the runes for which [unicode.IsSpace] holds: the six
    ASCII ones, U+0085, U+00A0, U+1680, U+2000..U+200A, U+2028, U+2029,
    U+202F, U+205F and U+3000. *)
Definition spaceRunes : list (list ascii) :=
  List.map str
    [ [0x09]; [0x0A]; [0x0B]; [0x0C]; [0x0D]; [0x20];
      [0xC2; 0x85]; [0xC2; 0xA0];
      [0xE1; 0x9A; 0x80];
      [0xE2; 0x80; 0x80]; [0xE2; 0x80; 0x81]; [0xE2; 0x80; 0x82];
      [0xE2; 0x80; 0x83]; [0xE2; 0x80; 0x84]; [0xE2; 0x80; 0x85];
      [0xE2; 0x80; 0x86]; [0xE2; 0x80; 0x87]; [0xE2; 0x80; 0x88];
      [0xE2; 0x80; 0x89]; [0xE2; 0x80; 0x8A];
      [0xE2; 0x80; 0xA8]; [0xE2; 0x80; 0xA9]; [0xE2; 0x80; 0xAF];
      [0xE2; 0x81; 0x9F];
      [0xE3; 0x80; 0x80] ]%N.

Fixpoint stripPrefix (p s : list ascii) : option (list ascii) :=
  match p, s with
  | [], _ => Some s
  | _ :: _, [] => None
  | a :: p', b :: s' => if Ascii.eqb a b then stripPrefix p' s' else None
  end.

(** Removes one leading white space rune, chosen among [runes]. *)
Fixpoint stripRune (runes : list (list ascii)) (s : list ascii)
  : option (list ascii) :=
  match runes with
  | [] => None
  | r :: rest =>
      match stripPrefix r s with
      | Some s' => Some s'
      | None => stripRune rest s
      end
  end.

Fixpoint trimLeft (runes : list (list ascii)) (fuel : nat) (s : list ascii)
  : list ascii :=
  match fuel with
  | O => s
  | S fuel' =>
      match stripRune runes s with
      | Some s' => trimLeft runes fuel' s'
      | None => s
      end
  end.

(** [strings.TrimSpace]: all leading and trailing white space removed.  Every
    removed rune takes at least one byte, so the length of the string is
    enough fuel on each side. *)
Definition TrimSpace (s : string) : string :=
  let l := list_ascii_of_string s in
  let l1 := trimLeft spaceRunes (List.length l) l in
  let r1 := trimLeft (List.map (@List.rev ascii) spaceRunes)
              (List.length l1) (List.rev l1) in
  string_of_list_ascii (List.rev r1).

(** ** package validation: Context *)

(** The context as validators see it: a target and a metadata bag.  (The
    reference behaviour of the Go map behind [Metadata] is in module
    [Heap] below.) *)
Record Context : Type := mkContext {
  Target : string;
  Metadata : gmap string any
}.

Definition NewContext (target : string) : Context :=
  {| Target := target; Metadata := ∅ |}.

Definition Context_WithMetadata (c : Context) (key : string) (value : any) : Context :=
  let newMetadata :=
    map_fold (λ k v (acc : gmap string any), <[k := v]> acc) ∅ (Metadata c) in
  {| Target := Target c; Metadata := <[key := value]> newMetadata |}.

(** ** package errors and package validation: errors *)

Definition errType : string := "validation".
Definition defaultCode : string := "validation-failed".

(** Modelled from the spec: [errors.ErrorData] and [errors.NewErrorData] in
    the form that package [validation] uses, with [Message] a [*string] (the
    declaration among the sources is the earlier one, with a plain string):
    an error of type "validation" has a code, a metadata bag that starts
    empty, and a human message that may be absent. *)
Record ErrorData : Type := mkErrorData {
  Type_ : string;
  Code : string;
  EMetadata : gmap string any;
  Message : option string
}.

Definition NewErrorData (t code : string) (message : option string) : ErrorData :=
  {| Type_ := t; Code := code; EMetadata := ∅; Message := message |}.

Definition ErrorData_WithCode (e : ErrorData) (code : string) : ErrorData :=
  {| Type_ := Type_ e; Code := code; EMetadata := EMetadata e;
     Message := Message e |}.

Record ValidationError : Type := mkValidationError {
  EData : ErrorData;
  ETarget : string;
  EValue : any
}.

Definition NewValidationError (target : string) (value : any) (message : string)
  : ValidationError :=
  {| ETarget := target; EValue := value;
     EData := NewErrorData errType defaultCode (Some message) |}.

Definition ValidationError_WithMetadata (ve : ValidationError) (key : string) (value : any)
  : ValidationError :=
  {| ETarget := ETarget ve; EValue := EValue ve;
     EData := {| Type_ := Type_ (EData ve); Code := Code (EData ve);
                 EMetadata := <[key := value]> (EMetadata (EData ve));
                 Message := Message (EData ve) |} |}.

Definition ValidationError_WithCode (ve : ValidationError) (code : string) : ValidationError :=
  {| ETarget := ETarget ve; EValue := EValue ve;
     EData := ErrorData_WithCode (EData ve) code |}.

(** [ValidationError.Error]. *)
Definition ValidationError_Error (ve : ValidationError) : string :=
  match Message (EData ve) with
  | Some m => m
  | None =>
      ETarget ve +:+ ": validation failed for " +:+ dquote
        +:+ fmt_v (EValue ve) +:+ dquote
  end.

Definition ValidationError_Code (ve : ValidationError) : string := Code (EData ve).

Definition ValidationError_Type (ve : ValidationError) : string :=
  Type_ (EData ve).

Definition ValidationError_Metadata (ve : ValidationError) : gmap string any :=
  EMetadata (EData ve).

Record ValidationResult : Type := mkValidationResult {
  Errors : list ValidationError
}.

Definition NewValidationResult : ValidationResult := {| Errors := [] |}.

Definition ValidationResult_Add (r : ValidationResult) (err : ValidationError)
  : ValidationResult :=
  {| Errors := (Errors r ++ [err])%list |}.

Definition ValidationResult_HasErrors (r : ValidationResult) : bool :=
  (0 <? Z.of_nat (List.length (Errors r))).

(** ** Go's [error] interface *)

(** The dynamic types of the [error] values that occur: the plain error that
    [fmt.Errorf] builds from a format without [%w], which has a message and
    nothing else, and a [*ValidationError], which satisfies the rich
    [errors.Error] interface. *)
Inductive error : Type :=
  | errorString (s : string)
  | richError (ve : ValidationError).

Definition error_Error (e : error) : string :=
  match e with
  | errorString s => s
  | richError ve => ValidationError_Error ve
  end.

(** The code a caller can read off an [error]: a type assertion to
    [errors.Error] followed by [Code()]. *)
Definition error_Code (e : error) : option string :=
  match e with
  | errorString _ => None
  | richError ve => Some (ValidationError_Code ve)
  end.

(** [fmt.Errorf("%s", s)]. *)
Definition fmt_Errorf (s : string) : error := errorString s.

(** ** Effects *)

(** A Go function value run in a world [W] returns a result and the world it
    leaves behind. *)
Definition M (W A : Type) : Type := W → A * W.

#[export] Instance M_ret {W} : MRet (M W) := λ A a w, (a, w).
#[export] Instance M_bind {W} : MBind (M W) :=
  λ A B f m w, let '(a, w') := m w in f a w'.

(** ** package validators: Validator and ValidatorChain *)

Record Validator (W T : Type) : Type := mkValidator {
  Name : option string;
  Validate : T → Context → M W (option ValidationError)
}.
Arguments mkValidator {W T}.
Arguments Name {W T}.
Arguments Validate {W T}.

Definition NewValidator {W T}
  (validateFn : T → Context → M W (option ValidationError)) : Validator W T :=
  {| Name := None; Validate := validateFn |}.

Definition Validator_WithName {W T} (v : Validator W T) (name : string)
  : Validator W T :=
  {| Name := Some name; Validate := Validate v |}.

Definition Validator_GetName {W T} (v : Validator W T) : string :=
  match Name v with
  | Some n => n
  | None => "unnamed-validator"
  end.

Record ValidatorChain (W T : Type) : Type := mkValidatorChain {
  validators : list (Validator W T)
}.
Arguments mkValidatorChain {W T}.
Arguments validators {W T}.

Definition NewValidatorChain {W T} (vs : list (Validator W T))
  : ValidatorChain W T :=
  {| validators := vs |}.

Definition ValidatorChain_Add {W T} (vc : ValidatorChain W T)
  (validator : Validator W T) : ValidatorChain W T :=
  {| validators := (validators vc ++ [validator])%list |}.

(** The loop of [ValidatorChain.Validate] over the validators still to run,
    [errs] being the result collected so far. *)
Fixpoint Validate_range {W T} (vs : list (Validator W T)) (value : T)
  (ctx : Context) (errs : ValidationResult) : M W ValidationResult :=
  match vs with
  | [] => mret errs
  | validator :: rest =>
      err ← Validate validator value ctx;
      match err with
      | Some e => Validate_range rest value ctx (ValidationResult_Add errs e)
      | None => Validate_range rest value ctx errs
      end
  end.

Definition ValidatorChain_Validate {W T} (vc : ValidatorChain W T) (value : T)
  (ctx : Context) : M W ValidationResult :=
  Validate_range (validators vc) value ctx NewValidationResult.

(** The loop of [ValidatorChain.ValidateFirst]. *)
Fixpoint ValidateFirst_range {W T} (vs : list (Validator W T)) (value : T)
  (ctx : Context) : M W (option ValidationError) :=
  match vs with
  | [] => mret None
  | validator :: rest =>
      err ← Validate validator value ctx;
      match err with
      | Some e => mret (Some e)
      | None => ValidateFirst_range rest value ctx
      end
  end.

Definition ValidatorChain_ValidateFirst {W T} (vc : ValidatorChain W T)
  (value : T) (ctx : Context) : M W (option ValidationError) :=
  ValidateFirst_range (validators vc) value ctx.

(** ** package validators: string validators *)

(** A validator whose function has no effect. *)
Definition pureFn {W T} (f : T → Context → option ValidationError)
  : T → Context → M W (option ValidationError) :=
  λ value ctx, mret (f value ctx).

Definition NotEmpty {W} : Validator W string :=
  NewValidator (pureFn (λ value ctx,
    if String.eqb (TrimSpace value) EmptyString then
      let msg := Target ctx +:+ ": must not be empty" in
      let err :=
        ValidationError_WithCode
          (NewValidationError (Target ctx) (AnyString value) msg) "not-empty" in
      Some err
    else None)).

Definition MinLength {W} (min : Z) : Validator W string :=
  NewValidator (pureFn (λ value ctx,
    if len value <? min then
      let msg := Target ctx +:+ ": must be at least " +:+ fmt_d min
                 +:+ " characters, got " +:+ fmt_d (len value) in
      let err :=
        ValidationError_WithCode
          (ValidationError_WithMetadata
             (ValidationError_WithMetadata
                (NewValidationError (Target ctx) (AnyString value) msg)
                "min" (AnyInt min))
             "actual" (AnyInt (len value)))
          "min-length" in
      Some err
    else None)).

Definition MaxLength {W} (max : Z) : Validator W string :=
  NewValidator (pureFn (λ value ctx,
    if len value >? max then
      let msg := Target ctx +:+ ": must be at most " +:+ fmt_d max
                 +:+ " characters, got " +:+ fmt_d (len value) in
      let err :=
        ValidationError_WithCode
          (ValidationError_WithMetadata
             (ValidationError_WithMetadata
                (NewValidationError (Target ctx) (AnyString value) msg)
                "max" (AnyInt max))
             "actual" (AnyInt (len value)))
          "max-length" in
      Some err
    else None)).

Definition Custom {W} (validateFn : string → bool) (errorMsg : string)
  : Validator W string :=
  NewValidator (pureFn (λ value ctx,
    if negb (validateFn value) then
      let msg := Target ctx +:+ ": " +:+ errorMsg in
      let err :=
        ValidationError_WithCode
          (NewValidationError (Target ctx) (AnyString value) msg)
          "custom-validation-failed" in
      Some err
    else None)).

(** *** Pattern *)

(** Package [regexp] of the Go library, as far as [Pattern] uses it: [Compile]
    parses a pattern into a compiled expression or reports a syntax error,
    [MatchString] decides whether a compiled expression matches, and [quote]
    renders a pattern for the panic message of [MustCompile]. *)
Class RegexpEngine : Type := {
  Regexp : Type;
  Compile : string → Regexp + string;
  MatchString : Regexp → string → bool;
  quote : string → string
}.

(** A call either returns or panics. *)
Inductive outcome (A : Type) : Type :=
  | Returns (a : A)
  | Panics (msg : string).
Arguments Returns {A}.
Arguments Panics {A}.

(** [regexp.MustCompile]: like [Compile], but a syntax error is a panic. *)
Definition MustCompile `{RegexpEngine} (pattern : string) : outcome Regexp :=
  match Compile pattern with
  | inl re => Returns re
  | inr err =>
      Panics ("regexp: Compile(" +:+ quote pattern +:+ "): " +:+ err)
  end.

Definition Pattern `{RegexpEngine} {W} (pattern : string)
  : outcome (Validator W string) :=
  match MustCompile pattern with
  | Panics msg => Panics msg
  | Returns regex =>
      Returns (NewValidator (pureFn (λ value ctx,
        if negb (MatchString regex value) then
          let msg := Target ctx +:+ ": does not match required pattern" in
          let err :=
            ValidationError_WithCode
              (ValidationError_WithMetadata
                 (NewValidationError (Target ctx) (AnyString value) msg)
                 "pattern" (AnyString pattern))
              "pattern-mismatch" in
          Some err
        else None)))
  end.

Definition Email `{RegexpEngine} {W} : outcome (Validator W string) :=
  Pattern "^[a-zA-Z0-9._%+-]+@[a-zA-Z0-9.-]+\.[a-zA-Z]{2,}$".

(** ** package validation (store): the key and value adapters *)

Record StoreKeyValidator (W : Type) : Type := mkStoreKeyValidator {
  chain : ValidatorChain W string
}.
Arguments mkStoreKeyValidator {W}.
Arguments chain {W}.

Definition NewStoreKeyValidator {W} (validatorList : list (Validator W string))
  : StoreKeyValidator W :=
  {| chain := NewValidatorChain validatorList |}.

(** [StoreKeyValidator.Validate].  [result.Errors[0]] is read only when
    [HasErrors] holds, so the index is in range; the empty branch of the
    match is never taken. *)
Definition StoreKeyValidator_Validate {W} (skv : StoreKeyValidator W)
  (key : string) : M W (option error) :=
  let ctx := NewContext "key" in
  result ← ValidatorChain_Validate (chain skv) key ctx;
  if ValidationResult_HasErrors result then
    match Errors result with
    | e0 :: _ => mret (Some (fmt_Errorf (ValidationError_Error e0)))
    | [] => mret None
    end
  else mret None.

Abbreviation ValueValidatorFunc W :=
  (string → bytes → Context → M W (option ValidationError)).

Record StoreValueValidator (W : Type) : Type := mkStoreValueValidator {
  value_validators : list (ValueValidatorFunc W)
}.
Arguments mkStoreValueValidator {W}.
Arguments value_validators {W}.

Definition NewStoreValueValidator {W} (validatorFuncs : list (ValueValidatorFunc W))
  : StoreValueValidator W :=
  {| value_validators := validatorFuncs |}.

Fixpoint value_range {W} (vs : list (ValueValidatorFunc W)) (key : string)
  (value : bytes) (ctx : Context) : M W (option error) :=
  match vs with
  | [] => mret None
  | validator :: rest =>
      err ← validator key value ctx;
      match err with
      | Some e => mret (Some (fmt_Errorf (ValidationError_Error e)))
      | None => value_range rest key value ctx
      end
  end.

Definition StoreValueValidator_Validate {W} (svv : StoreValueValidator W)
  (key : string) (value : bytes) : M W (option error) :=
  let ctx := Context_WithMetadata (NewContext "value") "key" (AnyString key) in
  value_range (value_validators svv) key value ctx.

Definition NonEmptyKeyValidator {W} : Validator W string :=
  Validator_WithName NotEmpty "non-empty-key".

Definition KeyLengthValidator {W} (maxLength : Z) : Validator W string :=
  Validator_WithName (MaxLength maxLength) "key-length".

Definition KeyPatternValidator `{RegexpEngine} {W} (pattern : string)
  : outcome (Validator W string) :=
  match Pattern pattern with
  | Returns v => Returns (Validator_WithName v "key-pattern")
  | Panics msg => Panics msg
  end.

Definition ValueSizeValidator {W} (maxSize : Z) : ValueValidatorFunc W :=
  λ key value ctx, mret (
    if len_bytes value >? maxSize then
      let msg := "value too large: maximum " +:+ fmt_d maxSize
                 +:+ " bytes, got " +:+ fmt_d (len_bytes value) in
      Some (ValidationError_WithCode
              (ValidationError_WithMetadata
                 (ValidationError_WithMetadata
                    (ValidationError_WithMetadata
                       (NewValidationError (Target ctx)
                          (AnyInt (len_bytes value)) msg)
                       "max-size" (AnyInt maxSize))
                    "actual-size" (AnyInt (len_bytes value)))
                 "key" (AnyString key))
              "value-too-large")
    else None).

Definition DefaultKeyValidators {W} : list (Validator W string) :=
  [ NonEmptyKeyValidator; KeyLengthValidator 1024 ].

Definition DefaultValueValidators {W} : list (ValueValidatorFunc W) :=
  [ ValueSizeValidator (100 * 1024 * 1024) ].

(** ** package store: the storage contract *)

Record Store (W : Type) : Type := mkStore {
  Get : string → M W (bytes * bool * option error);
  Put : string → bytes → M W (option error);
  Delete : string → M W (option error);
  Scan : string → M W (option (gmap string bytes) * option error);
  Close : M W (option error)
}.
Arguments mkStore {W}.
Arguments Get {W}.
Arguments Put {W}.
Arguments Delete {W}.
Arguments Scan {W}.
Arguments Close {W}.

(** ** package validation (store): the decorator over the adapters *)

Definition ValueMaxSize : Z := 100 * 1024 * 1024.

Record ValidatedStore (W : Type) : Type := mkValidatedStore {
  inner : Store W;
  keyValidator : StoreKeyValidator W;
  valueValidator : StoreValueValidator W
}.
Arguments mkValidatedStore {W}.
Arguments inner {W}.
Arguments keyValidator {W}.
Arguments valueValidator {W}.

Definition New {W} (s : Store W) (keyValidator : StoreKeyValidator W)
  (valueValidator : StoreValueValidator W) : ValidatedStore W :=
  {| inner := s; keyValidator := keyValidator;
     valueValidator := valueValidator |}.

Definition NewWithDefaultValidators {W} (s : Store W) : ValidatedStore W :=
  let keyValidator := NewStoreKeyValidator DefaultKeyValidators in
  let valueValidator := NewStoreValueValidator DefaultValueValidators in
  New s keyValidator valueValidator.

Definition ValidatedStore_Get {W} (f : ValidatedStore W) (key : string)
  : M W (bytes * bool * option error) :=
  err ← StoreKeyValidator_Validate (keyValidator f) key;
  match err with
  | Some e => mret (None, false, Some e)
  | None => Get (inner f) key
  end.

Definition ValidatedStore_Put {W} (f : ValidatedStore W) (key : string)
  (value : bytes) : M W (option error) :=
  err ← StoreKeyValidator_Validate (keyValidator f) key;
  match err with
  | Some e => mret (Some e)
  | None =>
      err ← StoreValueValidator_Validate (valueValidator f) key value;
      match err with
      | Some e => mret (Some e)
      | None => Put (inner f) key value
      end
  end.

Definition ValidatedStore_Delete {W} (f : ValidatedStore W) (key : string)
  : M W (option error) :=
  err ← StoreKeyValidator_Validate (keyValidator f) key;
  match err with
  | Some e => mret (Some e)
  | None => Delete (inner f) key
  end.

Definition ValidatedStore_Scan {W} (f : ValidatedStore W) (prefix : string)
  : M W (option (gmap string bytes) * option error) :=
  Scan (inner f) prefix.

Definition ValidatedStore_Close {W} (f : ValidatedStore W) : M W (option error) :=
  Close (inner f).

(** ** package validation (store): the decorator over plain functions *)

(** The decorator whose validators are function values
    ([func(string) error] and [func(string, []byte) error]), with the rules
    of [validators.go]. *)
Module Functional.

Abbreviation KeyValidator W := (string → M W (option error)).
Abbreviation ValueValidator W := (string → bytes → M W (option error)).

Definition ValidateNonEmptyKey {W} : KeyValidator W :=
  λ key, mret (
    if String.eqb key EmptyString
    then Some (fmt_Errorf "key cannot be empty")
    else None).

Definition ValidateKeyLength {W} (maxLength : Z) : KeyValidator W :=
  λ key, mret (
    if len key >? maxLength
    then Some (fmt_Errorf ("key too long: maximum " +:+ fmt_d maxLength
                           +:+ " characters, got " +:+ fmt_d (len key)))
    else None).

Definition ValidateValueSize {W} (maxSize : Z) : ValueValidator W :=
  λ key value, mret (
    if len_bytes value >? maxSize
    then Some (fmt_Errorf ("value too large: maximum " +:+ fmt_d maxSize
                           +:+ " bytes, got " +:+ fmt_d (len_bytes value)))
    else None).

Fixpoint ComposeKeyValidators {W} (validators : list (KeyValidator W))
  : KeyValidator W :=
  λ key,
    match validators with
    | [] => mret None
    | validator :: rest =>
        err ← validator key;
        match err with
        | Some e => mret (Some e)
        | None => ComposeKeyValidators rest key
        end
    end.

Fixpoint ComposeValueValidators {W} (validators : list (ValueValidator W))
  : ValueValidator W :=
  λ key value,
    match validators with
    | [] => mret None
    | validator :: rest =>
        err ← validator key value;
        match err with
        | Some e => mret (Some e)
        | None => ComposeValueValidators rest key value
        end
    end.

Record ValidatedStore (W : Type) : Type := mkValidatedStore {
  inner : Store W;
  keyValidator : KeyValidator W;
  valueValidator : ValueValidator W
}.
Arguments mkValidatedStore {W}.
Arguments inner {W}.
Arguments keyValidator {W}.
Arguments valueValidator {W}.

Definition New {W} (s : Store W) (keyValidator : KeyValidator W)
  (valueValidator : ValueValidator W) : ValidatedStore W :=
  {| inner := s; keyValidator := keyValidator;
     valueValidator := valueValidator |}.

Definition NewWithDefaultValidators {W} (s : Store W) : ValidatedStore W :=
  let keyValidator :=
    ComposeKeyValidators [ ValidateNonEmptyKey; ValidateKeyLength 1024 ] in
  let valueValidator :=
    ComposeValueValidators [ ValidateValueSize ValueMaxSize ] in
  New s keyValidator valueValidator.

Definition Get {W} (f : ValidatedStore W) (key : string)
  : M W (bytes * bool * option error) :=
  err ← keyValidator f key;
  match err with
  | Some e => mret (None, false, Some e)
  | None => Get (inner f) key
  end.

Definition Put {W} (f : ValidatedStore W) (key : string) (value : bytes)
  : M W (option error) :=
  err ← keyValidator f key;
  match err with
  | Some e => mret (Some e)
  | None =>
      err ← valueValidator f key value;
      match err with
      | Some e => mret (Some e)
      | None => Put (inner f) key value
      end
  end.

Definition Delete {W} (f : ValidatedStore W) (key : string)
  : M W (option error) :=
  err ← keyValidator f key;
  match err with
  | Some e => mret (Some e)
  | None => Delete (inner f) key
  end.

Definition Scan {W} (f : ValidatedStore W) (prefix : string)
  : M W (option (gmap string bytes) * option error) :=
  Scan (inner f) prefix.

Definition Close {W} (f : ValidatedStore W) : M W (option error) :=
  Close (inner f).

End Functional.

(** ** Observing calls *)

(** A test double records the calls it receives: [logged entry m] runs [m]
    and appends an entry to a log kept beside the world. *)
Definition logged {W L A} (entry : A → L) (m : M W A) : M (W * list L) A :=
  λ '(w, log), let '(a, w') := m w in (a, (w', (log ++ [entry a])%list)).

(** The calls a decorated store can make. *)
Inductive Call : Type :=
  | CallKeyValidator (key : string)
  | CallValueValidator (key : string) (value : bytes)
  | CallGet (key : string)
  | CallPut (key : string) (value : bytes)
  | CallDelete (key : string)
  | CallScan (prefix : string)
  | CallClose.

Definition spyStore {W} (s : Store W) : Store (W * list Call) :=
  {| Get := λ key, logged (λ _, CallGet key) (Get s key);
     Put := λ key value, logged (λ _, CallPut key value) (Put s key value);
     Delete := λ key, logged (λ _, CallDelete key) (Delete s key);
     Scan := λ prefix, logged (λ _, CallScan prefix) (Scan s prefix);
     Close := logged (λ _, CallClose) (Close s) |}.

Definition spyKey {W} (kv : Functional.KeyValidator W)
  : Functional.KeyValidator (W * list Call) :=
  λ key, logged (λ _, CallKeyValidator key) (kv key).

Definition spyValue {W} (vv : Functional.ValueValidator W)
  : Functional.ValueValidator (W * list Call) :=
  λ key value, logged (λ _, CallValueValidator key value) (vv key value).

(** A validator that records its position in the chain and what it
    answered. *)
Definition spyValidator {W T} (i : nat) (v : Validator W T)
  : Validator (W * list (nat * option ValidationError)) T :=
  {| Name := Name v;
     Validate := λ value ctx, logged (λ r, (i, r)) (Validate v value ctx) |}.

Fixpoint spyFrom {W T} (i : nat) (vs : list (Validator W T))
  : list (Validator (W * list (nat * option ValidationError)) T) :=
  match vs with
  | [] => []
  | v :: rest => spyValidator i v :: spyFrom (S i) rest
  end.

Definition spyChain {W T} (vc : ValidatorChain W T)
  : ValidatorChain (W * list (nat * option ValidationError)) T :=
  {| validators := spyFrom 0 (validators vc) |}.

(** ** Context over a heap of maps *)

(** A Go map is a reference.  Here [Metadata] is a location in a heap of
    maps ([None] is the nil map), [make] allocates, and an assignment
    [m[k] = v] updates the heap in place. *)
Module Heap.

Abbreviation loc := positive.
Abbreviation heap := (gmap loc (gmap string any)).

Record Context : Type := mkContext {
  Target : string;
  Metadata : option loc
}.

Definition make (h : heap) : loc * heap :=
  let l := fresh (dom h) in (l, <[l := ∅]> h).

(** [m[k] = v]. *)
Definition assign (m : loc) (k : string) (v : any) (h : heap) : heap :=
  alter (λ entries, <[k := v]> entries) m h.

(** The entries of a map value; a nil map has none. *)
Definition entries (h : heap) (m : option loc) : gmap string any :=
  match m with
  | Some l => default ∅ (h !! l)
  | None => ∅
  end.

Definition NewContext (target : string) : M heap Context :=
  λ h, let '(m, h1) := make h in
       ({| Target := target; Metadata := Some m |}, h1).

Definition WithMetadata (c : Context) (key : string) (value : any)
  : M heap Context :=
  λ h,
    let '(newMetadata, h1) := make h in
    let h2 :=
      match Metadata c with
      | Some l =>
          map_fold (λ k v acc, assign newMetadata k v acc) h1
            (entries h1 (Some l))
      | None => h1
      end in
    let h3 := assign newMetadata key value h2 in
    ({| Target := Target c; Metadata := Some newMetadata |}, h3).

(** The references of a context point into the heap. *)
Definition valid (h : heap) (c : Context) : Prop :=
  match Metadata c with
  | Some l => is_Some (h !! l)
  | None => True
  end.

End Heap.

(** The context that a validator reads through a heap context. *)
Definition view (h : Heap.heap) (c : Heap.Context) : Context :=
  {| Target := Heap.Target c;
     Metadata := Heap.entries h (Heap.Metadata c) |}.

(** ** A store to test against *)

(** An in-memory store: the world is the map it keeps. *)
Definition mapStore : Store (gmap string (list Byte.byte)) :=
  {| Get := λ key m,
       match m !! key with
       | Some v => ((Some v, true, None), m)
       | None => ((None, false, None), m)
       end;
     Put := λ key value m, (None, <[key := default [] value]> m);
     Delete := λ key m, (None, delete key m);
     Scan := λ prefix m,
       ((Some (Some <$> filter (λ kv, String.prefix prefix kv.1 = true) m), None), m);
     Close := λ m, (None, m) |}.

(** ** package errors: the earlier ValidationError *)

(** [internal/model/errors/errors.go] keeps an earlier [ValidationError]
    whose message is a plain string and whose [Error] puts the target in
    front of it. *)
Module Legacy.

Record ErrorData : Type := mkErrorData {
  Type_ : string;
  Code : string;
  Metadata : gmap string any;
  Message : string
}.

Definition NewErrorData (t code message : string) : ErrorData :=
  {| Type_ := t; Code := code; Metadata := ∅; Message := message |}.

Record ValidationError : Type := mkValidationError {
  EData : ErrorData;
  Target : string;
  Value : any
}.

Definition NewValidationError (target : string) (value : any) (message : string)
  : ValidationError :=
  {| Target := target; Value := value;
     EData := NewErrorData errType defaultCode message |}.

Definition Error (ve : ValidationError) : string :=
  Target ve +:+ ": " +:+ Message (EData ve).

End Legacy.

(** ** Definitions used to state the properties *)

(** The decorator over the adapters is the decorator over plain functions,
    given the adapters' [Validate] methods. *)
Definition asFunctional {W} (f : ValidatedStore W) : Functional.ValidatedStore W :=
  Functional.New (inner f)
    (StoreKeyValidator_Validate (keyValidator f))
    (StoreValueValidator_Validate (valueValidator f)).

(** What the default key adapter answers. *)
Definition keyVerdict (key : string) : option error :=
  if String.eqb (TrimSpace key) EmptyString then
    Some (errorString "key: must not be empty")
  else if len key >? 1024 then
    Some (errorString ("key: must be at most " +:+ fmt_d 1024
                       +:+ " characters, got " +:+ fmt_d (len key)))
  else None.

(** What the default value adapter answers. *)
Definition valueVerdict (value : bytes) : option error :=
  if len_bytes value >? 100 * 1024 * 1024 then
    Some (errorString ("value too large: maximum " +:+ fmt_d (100 * 1024 * 1024)
                       +:+ " bytes, got " +:+ fmt_d (len_bytes value)))
  else None.

(** A key of [n] spaces, and a key of [n] times the two-byte rune U+00E9. *)
Definition blankKey (n : nat) : string :=
  string_of_list_ascii (replicate n " "%char).

Definition accentKey (n : nat) : string :=
  string_of_list_ascii (mjoin (replicate n (str [0xC3; 0xA9]%N))).

(** The key adapter in the words of the specification: the result of the
    chain's [ValidateFirst], turned into a plain error. *)
Definition specKeyAdapter {W} (skv : StoreKeyValidator W) (key : string)
  : M W (option error) :=
  r ← ValidatorChain_ValidateFirst (chain skv) key (NewContext "key");
  mret (fmt_Errorf ∘ ValidationError_Error <$> r).

(** A chain none of whose validators changes the world. *)
Definition effectFree {W T} (vc : ValidatorChain W T) : Prop :=
  ∀ v, v ∈ validators vc → ∀ value ctx w, (Validate v value ctx w).2 = w.

(** A stand-in engine for examples: it rejects the pattern [(] and reads
    every other pattern as a literal to be found in the input. *)
Fixpoint contains (needle hay : string) : bool :=
  String.prefix needle hay ||
  match hay with
  | EmptyString => false
  | String _ rest => contains needle rest
  end.

Definition literalEngine : RegexpEngine :=
  {| Regexp := string;
     Compile := λ p,
       if String.eqb p "("
       then inr "error parsing regexp: missing closing ): `(`"
       else inl p;
     MatchString := contains;
     quote := λ p, "`" +:+ p +:+ "`" |}.

(** ** package validators: ConditionalValidator *)

Record ConditionalValidator (W T : Type) : Type := mkConditionalValidator {
  Condition : T → Context → M W bool;
  Validator_ : Validator W T
}.
Arguments mkConditionalValidator {W T}.
Arguments Condition {W T}.
Arguments Validator_ {W T}.

Definition NewConditionalValidator {W T} (condition : T → Context → M W bool)
  (validator : Validator W T) : ConditionalValidator W T :=
  {| Condition := condition; Validator_ := validator |}.

Definition ConditionalValidator_Validate {W T} (cv : ConditionalValidator W T)
  (value : T) (ctx : Context) : M W (option ValidationError) :=
  Condition cv value ctx ≫= λ c : bool,
    if c then Validate (Validator_ cv) value ctx else mret None.

Definition ConditionalValidator_WithName {W T} (cv : ConditionalValidator W T)
  (name : string) : ConditionalValidator W T :=
  {| Condition := Condition cv;
     Validator_ := Validator_WithName (Validator_ cv) name |}.

(** ** package validation: ValidationResult.Error *)

(** [strings.Join]. *)
Definition strings_Join (elems : list string) (sep : string) : string :=
  String.concat sep elems.

Definition ValidationResult_Error (r : ValidationResult) : string :=
  if (Z.of_nat (List.length (Errors r)) =? 0) then "validation failed"
  else strings_Join (List.map ValidationError_Error (Errors r)) "; ".

(** ** package validators: more string and numeric validators *)

Definition Length {W} (min max : Z) : Validator W string :=
  NewValidator (pureFn (λ value ctx,
    let length := len value in
    if (length <? min) || (length >? max) then
      let msg := Target ctx +:+ ": must be between " +:+ fmt_d min +:+ " and "
                 +:+ fmt_d max +:+ " characters, got " +:+ fmt_d length in
      let err :=
        ValidationError_WithCode
          (ValidationError_WithMetadata
             (ValidationError_WithMetadata
                (ValidationError_WithMetadata
                   (NewValidationError (Target ctx) (AnyString value) msg)
                   "min-length" (AnyInt min))
                "max-length" (AnyInt max))
             "actual-length" (AnyInt length))
          "length-range" in
      Some err
    else None)).

(** The numeric validators, at an integer type: values are compared as
    integers and printed by [%v] in decimal. *)
Definition NumericRange {W} (min max : Z) : Validator W Z :=
  Validator_WithName
    (NewValidator (pureFn (λ value ctx,
       if (value <? min) || (value >? max) then
         let msg := Target ctx +:+ ": must be between " +:+ fmt_v (AnyInt min)
                    +:+ " and " +:+ fmt_v (AnyInt max) +:+ ", got "
                    +:+ fmt_v (AnyInt value) in
         let err :=
           ValidationError_WithCode
             (ValidationError_WithMetadata
                (ValidationError_WithMetadata
                   (ValidationError_WithMetadata
                      (NewValidationError (Target ctx) (AnyInt value) msg)
                      "min" (AnyInt min))
                   "max" (AnyInt max))
                "actual" (AnyInt value))
             "numeric-range" in
         Some err
       else None)))
    "numeric-range".

Definition Min {W} (min : Z) : Validator W Z :=
  Validator_WithName
    (NewValidator (pureFn (λ value ctx,
       if value <? min then
         let msg := Target ctx +:+ ": must be at least " +:+ fmt_v (AnyInt min)
                    +:+ ", got " +:+ fmt_v (AnyInt value) in
         let err :=
           ValidationError_WithCode
             (ValidationError_WithMetadata
                (ValidationError_WithMetadata
                   (NewValidationError (Target ctx) (AnyInt value) msg)
                   "min" (AnyInt min))
                "actual" (AnyInt value))
             "min-value" in
         Some err
       else None)))
    "min-value".

Definition Max {W} (max : Z) : Validator W Z :=
  Validator_WithName
    (NewValidator (pureFn (λ value ctx,
       if value >? max then
         let msg := Target ctx +:+ ": must be at most " +:+ fmt_v (AnyInt max)
                    +:+ ", got " +:+ fmt_v (AnyInt value) in
         let err :=
           ValidationError_WithCode
             (ValidationError_WithMetadata
                (ValidationError_WithMetadata
                   (NewValidationError (Target ctx) (AnyInt value) msg)
                   "max" (AnyInt max))
                "actual" (AnyInt value))
             "max-value" in
         Some err
       else None)))
    "max-value".

Definition Positive {W} : Validator W Z :=
  Validator_WithName
    (NewValidator (pureFn (λ value ctx,
       if value <=? 0 then
         let msg := Target ctx +:+ ": must be positive, got "
                    +:+ fmt_v (AnyInt value) in
         let err :=
           ValidationError_WithCode
             (NewValidationError (Target ctx) (AnyInt value) msg)
             "non-positive" in
         Some err
       else None)))
    "positive".

Definition NonNegative {W} : Validator W Z :=
  Validator_WithName
    (NewValidator (pureFn (λ value ctx,
       if value <? 0 then
         let msg := Target ctx +:+ ": must be non-negative, got "
                    +:+ fmt_v (AnyInt value) in
         let err :=
           ValidationError_WithCode
             (NewValidationError (Target ctx) (AnyInt value) msg)
             "non-negative" in
         Some err
       else None)))
    "non-negative".

(** ** The decorators as stores *)

(** A [*ValidatedStore] satisfies [store.Store]. *)
Definition asStore {W} (f : ValidatedStore W) : Store W :=
  {| Get := ValidatedStore_Get f;
     Put := ValidatedStore_Put f;
     Delete := ValidatedStore_Delete f;
     Scan := ValidatedStore_Scan f;
     Close := ValidatedStore_Close f |}.

Definition Functional_asStore {W} (f : Functional.ValidatedStore W) : Store W :=
  {| Get := Functional.Get f;
     Put := Functional.Put f;
     Delete := Functional.Delete f;
     Scan := Functional.Scan f;
     Close := Functional.Close f |}.

(** ** package memory: MemoryStore *)

(** The in-memory store.  Its world is the [data] field: a map, or nil once
    the store is closed.  Stored and returned values are copies, so they
    are never nil slices.  (The lock is not modelled: calls run one at a
    time.) *)
Module Memory.

Abbreviation data := (option (gmap string (list Byte.byte))).

Definition Close : M data (option error) :=
  λ _, (None, None).

Definition Get (key : string) : M data (bytes * bool * option error) :=
  λ ms,
    if String.eqb key EmptyString then
      ((None, false, Some (errorString "key cannot be empty")), ms)
    else
      match ms with
      | None => ((None, false, Some (errorString "store is closed")), ms)
      | Some d =>
          match d !! key with
          | None => ((None, false, None), ms)
          | Some value => ((Some value, true, None), ms)
          end
      end.

Definition Put (key : string) (value : bytes) : M data (option error) :=
  λ ms,
    if String.eqb key EmptyString then
      (Some (errorString "key cannot be empty"), ms)
    else
      match ms with
      | None => (Some (errorString "store is closed"), ms)
      | Some d =>
          let valueCopy := default [] value in
          (None, Some (<[key := valueCopy]> d))
      end.

Definition Delete (key : string) : M data (option error) :=
  λ ms,
    if String.eqb key EmptyString then
      (Some (errorString "key cannot be empty"), ms)
    else
      match ms with
      | None => (Some (errorString "store is closed"), ms)
      | Some d => (None, Some (delete key d))
      end.

Definition Scan (prefix : string)
  : M data (option (gmap string bytes) * option error) :=
  λ ms,
    match ms with
    | None => ((None, Some (errorString "store is closed")), ms)
    | Some d =>
        let result :=
          map_fold (λ key value (acc : gmap string bytes),
                      if String.prefix prefix key
                      then <[key := Some value]> acc
                      else acc) ∅ d in
        ((Some result, None), ms)
    end.

End Memory.

(** A [*MemoryStore] satisfies [store.Store]. *)
Definition MemoryStore : Store Memory.data :=
  {| Get := Memory.Get;
     Put := Memory.Put;
     Delete := Memory.Delete;
     Scan := Memory.Scan;
     Close := Memory.Close |}.

(** ** package badger: hasPrefix *)



(** ** package validation (store): ValueContentValidator *)

(** The conversion [string(value)]. *)
Definition string_of_bytes (value : bytes) : string :=
  string_of_list_byte (default [] value).

Definition ValueContentValidator {W} (validateFn : bytes → bool)
  (errorMsg : string) : ValueValidatorFunc W :=
  λ key value ctx, mret (
    if negb (validateFn value) then
      let msg := "value validation failed: " +:+ errorMsg in
      Some (ValidationError_WithCode
              (ValidationError_WithMetadata
                 (NewValidationError (Target ctx)
                    (AnyString (string_of_bytes value)) msg)
                 "key" (AnyString key))
              "value-content-invalid")
    else None).

(** ** package examples: the tenant stores *)

Definition createPremiumTenantStore {W} (baseStore : Store W) : Store W :=
  let keyValidator :=
    Functional.ComposeKeyValidators
      [ Functional.ValidateNonEmptyKey; Functional.ValidateKeyLength 200 ] in
  let valueValidator :=
    Functional.ComposeValueValidators
      [ Functional.ValidateValueSize (10 * 1024 * 1024) ] in
  Functional_asStore (Functional.New baseStore keyValidator valueValidator).

Definition createBasicTenantStore {W} (baseStore : Store W) : Store W :=
  let keyValidator :=
    Functional.ComposeKeyValidators
      [ Functional.ValidateNonEmptyKey; Functional.ValidateKeyLength 100 ] in
  let valueValidator :=
    Functional.ComposeValueValidators
      [ Functional.ValidateValueSize (1 * 1024 * 1024) ] in
  Functional_asStore (Functional.New baseStore keyValidator valueValidator).

Definition createFreeTenantStore {W} (baseStore : Store W) : Store W :=
  let keyValidator :=
    Functional.ComposeKeyValidators
      [ Functional.ValidateNonEmptyKey; Functional.ValidateKeyLength 50;
        (λ key, mret (
           if contains "premium" key || contains "enterprise" key
           then Some (errorString "free tier cannot use premium/enterprise keys")
           else None)) ] in
  let valueValidator :=
    Functional.ComposeValueValidators
      [ Functional.ValidateValueSize (100 * 1024) ] in
  Functional_asStore (Functional.New baseStore keyValidator valueValidator).

(** ** More test doubles *)

(** [quiet m] runs [m] beside a log that it leaves alone. *)
Definition quiet {W L A} (m : M W A) : M (W * list L) A :=
  λ '(w, log), let '(a, w') := m w in (a, (w', log)).

(** A value rule that records its position, the context it was given and
    what it answered. *)
Definition spyValueRule {W} (i : nat) (f : ValueValidatorFunc W)
  : ValueValidatorFunc (W * list (nat * Context * option ValidationError)) :=
  λ key value ctx, logged (λ r, (i, ctx, r)) (f key value ctx).

Fixpoint spyValueRulesFrom {W} (i : nat) (fs : list (ValueValidatorFunc W))
  : list (ValueValidatorFunc (W * list (nat * Context * option ValidationError))) :=
  match fs with
  | [] => []
  | f :: rest => spyValueRule i f :: spyValueRulesFrom (S i) rest
  end.

(** The six ASCII white space characters. *)
Definition asciiSpace (c : ascii) : bool :=
  match N_of_ascii c with
  | 0x09 | 0x0A | 0x0B | 0x0C | 0x0D | 0x20 => true
  | _ => false
  end%N.

(** Whether a validator's answer is an error. *)
Definition rejects (r : option ValidationError) : bool :=
  match r with
  | Some _ => true
  | None => false
  end.

(** The context that the value adapter hands to its rules. *)
Definition valueContext (key : string) : Context :=
  {| Target := "value"; Metadata := {[ "key" := AnyString key ]} |}.

(** * Properties *)

Arguments TrimSpace : simpl never.
Arguments fmt_d : simpl never.
Arguments len : simpl never.
Arguments len_bytes : simpl never.
Arguments String.append : simpl never.

Ltac run :=
  unfold mbind, M_bind, mret, M_ret, logged; simpl.

(** ** ValidationError.Error *)

(** C6, as the code has it: [Error()] of an error built with a message [m]
    is [m] itself, whatever the target (the validators of the library put
    the target into the message themselves); with no message it is the
    default text made of the target and the value. *)
Theorem Error_is_the_message (t : string) (v : any) (m : string) (ed : ErrorData) :
  ValidationError_Error (NewValidationError t v m) = m ∧
  ValidationError_Error
    {| ETarget := t; EValue := v;
       EData := {| Type_ := Type_ ed; Code := Code ed;
                   EMetadata := EMetadata ed; Message := None |} |}
  = t +:+ ": validation failed for " +:+ dquote +:+ fmt_v v +:+ dquote.
Proof. split; reflexivity. Qed.

(** C6 as stated fails: the error built for target [username] with message
    [invalid username] does not print as [username: invalid username]. *)
Lemma Error_does_not_prefix_target :
  ValidationError_Error
    (NewValidationError "username" (AnyString "test") "invalid username")
  ≠ "username: invalid username".
Proof. vm_compute. discriminate. Qed.

(** The fluent setters leave the message alone. *)
Lemma Error_WithCode ve code :
  ValidationError_Error (ValidationError_WithCode ve code)
  = ValidationError_Error ve.
Proof. reflexivity. Qed.

Lemma Error_WithMetadata ve k v :
  ValidationError_Error (ValidationError_WithMetadata ve k v)
  = ValidationError_Error ve.
Proof. reflexivity. Qed.

(** The earlier [ValidationError] of package [errors] does put the target
    in front of the message. *)
Lemma Legacy_Error_prefixes_target (t : string) (v : any) (m : string) :
  Legacy.Error (Legacy.NewValidationError t v m) = t +:+ ": " +:+ m.
Proof. reflexivity. Qed.

(** The library's rules write the target into their messages themselves. *)
Lemma NotEmpty_message {W} (value : string) (ctx : Context) (w : W) :
  (ValidationError_Error <$> (Validate NotEmpty value ctx w).1)
  = if String.eqb (TrimSpace value) EmptyString
    then Some (Target ctx +:+ ": must not be empty")
    else None.
Proof.
  unfold NotEmpty, pureFn. run.
  destruct (String.eqb (TrimSpace value) EmptyString); reflexivity.
Qed.

Lemma MaxLength_message {W} (max : Z) (value : string) (ctx : Context) (w : W) :
  (ValidationError_Error <$> (Validate (MaxLength max) value ctx w).1)
  = if len value >? max
    then Some (Target ctx +:+ ": must be at most " +:+ fmt_d max
               +:+ " characters, got " +:+ fmt_d (len value))
    else None.
Proof.
  unfold MaxLength, pureFn. run.
  destruct (len value >? max); reflexivity.
Qed.

(** ** The decorator *)

Lemma ValidatedStore_asFunctional {W} (f : ValidatedStore W) :
  ValidatedStore_Get f = Functional.Get (asFunctional f) ∧
  ValidatedStore_Put f = Functional.Put (asFunctional f) ∧
  ValidatedStore_Delete f = Functional.Delete (asFunctional f) ∧
  ValidatedStore_Scan f = Functional.Scan (asFunctional f) ∧
  ValidatedStore_Close f = Functional.Close (asFunctional f).
Proof. repeat split. Qed.

(** C8: [Scan] is the inner store's [Scan]: the call reaches the inner store
    for every prefix, no validator is called, and the result is the inner
    store's. *)
Theorem Scan_delegates {W} (s : Store W) (kv : Functional.KeyValidator W)
  (vv : Functional.ValueValidator W) (skv : StoreKeyValidator W)
  (svv : StoreValueValidator W) (prefix : string) (w : W) :
  Functional.Scan (Functional.New s kv vv) prefix w = Scan s prefix w ∧
  ValidatedStore_Scan (New s skv svv) prefix w = Scan s prefix w ∧
  Functional.Scan (Functional.New (spyStore s) (spyKey kv) (spyValue vv))
    prefix (w, [])
  = (let '(r, w') := Scan s prefix w in (r, (w', [CallScan prefix]))).
Proof.
  repeat split.
Qed.

(** C1: a failed validation stops the operation.  With every collaborator
    recording its calls: when the key validator answers an error, [Get],
    [Put] and [Delete] return that error ([Get] with a nil value and
    [found = false]) after the single call to the key validator, in the
    world that validator left; when the key passes and the value validator
    answers an error, [Put] returns that error after the two validator
    calls.  In neither case is there a call to the inner store. *)
Theorem failed_validation_stops {W} (s : Store W)
  (kv : Functional.KeyValidator W) (vv : Functional.ValueValidator W)
  (key : string) (value : bytes) (w : W) :
  let f := Functional.New (spyStore s) (spyKey kv) (spyValue vv) in
  (∀ err w1, kv key w = (Some err, w1) →
     Functional.Get f key (w, [])
       = ((None, false, Some err), (w1, [CallKeyValidator key])) ∧
     Functional.Put f key value (w, [])
       = (Some err, (w1, [CallKeyValidator key])) ∧
     Functional.Delete f key (w, [])
       = (Some err, (w1, [CallKeyValidator key]))) ∧
  (∀ err w1 w2, kv key w = (None, w1) → vv key value w1 = (Some err, w2) →
     Functional.Put f key value (w, [])
       = (Some err, (w2, [CallKeyValidator key; CallValueValidator key value]))).
Proof.
  split.
  - intros err w1 Hk.
    unfold Functional.Get, Functional.Put, Functional.Delete, spyKey. run.
    rewrite Hk. auto.
  - intros err w1 w2 Hk Hv.
    unfold Functional.Put, spyKey, spyValue. run.
    rewrite Hk. simpl. rewrite Hv. reflexivity.
Qed.

(** A key rule that refuses everything, then a value rule that refuses a
    non-empty value: nothing reaches the map. *)
Lemma failed_validation_stops_witness :
  let W := gmap string (list Byte.byte) in
  let no : Functional.KeyValidator W := λ key, mret (Some (fmt_Errorf "no")) in
  let yes : Functional.KeyValidator W := λ key, mret None in
  let small : Functional.ValueValidator W := Functional.ValidateValueSize 0 in
  let v : bytes := Some [Byte.x00] in
  Functional.Put (Functional.New (spyStore mapStore) (spyKey no) (spyValue small))
    "k" v (∅, [])
  = (Some (fmt_Errorf "no"), (∅, [CallKeyValidator "k"])) ∧
  Functional.Put (Functional.New (spyStore mapStore) (spyKey yes) (spyValue small))
    "k" v (∅, [])
  = (Some (fmt_Errorf "value too large: maximum 0 bytes, got 1"),
     (∅, [CallKeyValidator "k"; CallValueValidator "k" v])).
Proof.
  intros W no yes small v. split.
  - apply (proj1 (failed_validation_stops mapStore no small "k" v ∅)
             (fmt_Errorf "no") ∅).
    reflexivity.
  - apply (proj2 (failed_validation_stops mapStore yes small "k" v ∅)
             (fmt_Errorf "value too large: maximum 0 bytes, got 1") ∅ ∅);
      reflexivity.
Defined.

(** The same for the decorator over the adapters, for every inner store:
    when the key adapter answers an error, the operation returns it in the
    world that the adapter left. *)
Lemma failed_key_adapter_stops {W} (f : ValidatedStore W) (key : string)
  (value : bytes) (w w1 : W) (err : error) :
  StoreKeyValidator_Validate (keyValidator f) key w = (Some err, w1) →
  ValidatedStore_Get f key w = ((None, false, Some err), w1) ∧
  ValidatedStore_Put f key value w = (Some err, w1) ∧
  ValidatedStore_Delete f key w = (Some err, w1).
Proof.
  intros Hk.
  unfold ValidatedStore_Get, ValidatedStore_Put, ValidatedStore_Delete,
    mbind, M_bind.
  rewrite Hk. auto.
Qed.

(** ** The default rules *)

Lemma default_key_adapter {W} (key : string) (w : W) :
  StoreKeyValidator_Validate (NewStoreKeyValidator DefaultKeyValidators) key w
  = (keyVerdict key, w).
Proof.
  unfold StoreKeyValidator_Validate, ValidatorChain_Validate, keyVerdict.
  simpl. unfold pureFn. run.
  destruct (String.eqb (TrimSpace key) EmptyString);
    destruct (len key >? 1024); reflexivity.
Qed.

Lemma default_value_adapter {W} (key : string) (value : bytes) (w : W) :
  StoreValueValidator_Validate (NewStoreValueValidator DefaultValueValidators)
    key value w
  = (valueVerdict value, w).
Proof.
  unfold StoreValueValidator_Validate, valueVerdict. simpl. run.
  destruct (len_bytes value >? 100 * 1024 * 1024); reflexivity.
Qed.

Lemma default_Put {W} (s : Store W) (key : string) (value : bytes) (w : W) :
  ValidatedStore_Put (NewWithDefaultValidators s) key value w
  = match keyVerdict key with
    | Some e => (Some e, w)
    | None =>
        match valueVerdict value with
        | Some e => (Some e, w)
        | None => Put s key value w
        end
    end.
Proof.
  unfold ValidatedStore_Put, NewWithDefaultValidators. simpl.
  unfold mbind, M_bind at 1. rewrite default_key_adapter.
  destruct (keyVerdict key); [reflexivity|].
  unfold mbind, M_bind. rewrite default_value_adapter.
  destruct (valueVerdict value); reflexivity.
Qed.

(** C7, as the code has it: on the default store [Put] of the empty key
    returns, for every value and whatever the inner store, the plain error
    made from the message of the not-empty rule's error, and the inner store
    receives no call.  The rule's own error carries the code [not-empty]. *)
Theorem empty_key_rejected {W} (s : Store W) (v : bytes) (w : W) :
  ValidatedStore_Put (NewWithDefaultValidators (spyStore s)) EmptyString v (w, [])
  = (Some (errorString "key: must not be empty"), (w, [])) ∧
  ∃ ve : ValidationError,
    Validate NonEmptyKeyValidator EmptyString (NewContext "key") w = (Some ve, w) ∧
    ValidationError_Code ve = "not-empty" ∧
    ValidationError_Error ve = "key: must not be empty".
Proof.
  split.
  - rewrite default_Put. reflexivity.
  - eexists. repeat split.
Qed.

(** C7 as stated fails: the error that [Put] returns for the empty key is a
    plain error, and a plain error has no code to read. *)
Lemma empty_key_error_has_no_code :
  let r := ValidatedStore_Put (NewWithDefaultValidators (spyStore mapStore))
             EmptyString (Some [Byte.x00]) (∅, []) in
  r.1 = Some (errorString "key: must not be empty") ∧
  (error_Code <$> r.1) ≠ Some (Some "not-empty").
Proof. split; [reflexivity | vm_compute; discriminate]. Qed.

(** C2, as the code has it.  On the default store [Put] reaches the inner
    store exactly when the key is not blank, has at most 1024 bytes, and the
    value has at most 100 MiB; otherwise it returns an error and the inner
    store receives no call.  The error is the plain form of the first rule
    that fails: not-empty for a blank key of any length, else max-length for
    a key of more than 1024 bytes, else value-too-large for a value of more
    than 100 MiB. *)
Theorem default_Put_gate {W} (s : Store W) (key : string) (value : bytes) (w : W) :
  let put := ValidatedStore_Put (NewWithDefaultValidators (spyStore s))
               key value (w, []) in
  let blank := String.eqb (TrimSpace key) EmptyString in
  (if negb blank && (len key <=? 1024) && (len_bytes value <=? 100 * 1024 * 1024)
   then put = (let '(r, w') := Put s key value w in (r, (w', [CallPut key value])))
   else ∃ e, put = (Some e, (w, []))) ∧
  (if blank then
     put.1 = Some (errorString "key: must not be empty")
   else if len key >? 1024 then
     ∃ ve, Validate (KeyLengthValidator 1024) key (NewContext "key") w = (Some ve, w) ∧
           ValidationError_Code ve = "max-length" ∧
           put.1 = Some (fmt_Errorf (ValidationError_Error ve))
   else if len_bytes value >? 100 * 1024 * 1024 then
     ∃ ve, ValueSizeValidator (100 * 1024 * 1024) key value
             (Context_WithMetadata (NewContext "value") "key" (AnyString key)) w
           = (Some ve, w) ∧
           ValidationError_Code ve = "value-too-large" ∧
           put.1 = Some (fmt_Errorf (ValidationError_Error ve))
   else True).
Proof.
  intros put blank. subst put blank. rewrite default_Put.
  unfold keyVerdict, valueVerdict.
  rewrite !Z.leb_antisym, !Z.gtb_ltb.
  destruct (String.eqb (TrimSpace key) EmptyString) eqn:Hb; simpl.
  { split; [eexists; reflexivity | reflexivity]. }
  destruct (1024 <? len key) eqn:Hk; simpl.
  { split; [eexists; reflexivity |].
    unfold pureFn. run. rewrite Z.gtb_ltb, Hk. eexists. repeat split. }
  destruct (100 * 1024 * 1024 <? len_bytes value) eqn:Hv; simpl.
  { split; [eexists; reflexivity |].
    unfold ValueSizeValidator. run. rewrite Z.gtb_ltb, Hv.
    eexists. repeat split. }
  split; [|exact I].
  unfold logged. destruct (Put s key value w); reflexivity.
Qed.

(** C2 as stated fails: a key of 1025 spaces is longer than 1024, the
    max-length rule does answer an error for it, but [Put] is rejected with
    the not-empty rule's error, which comes first. *)
Lemma long_blank_key_not_rejected_by_max_length :
  let key := blankKey 1025 in
  let r := ValidatedStore_Put (NewWithDefaultValidators (spyStore mapStore))
             key (Some [Byte.x00]) (∅, []) in
  let rule := (Validate (KeyLengthValidator 1024) key (NewContext "key")
                 (∅ : gmap string (list Byte.byte))).1 in
  1024 < len key ∧
  (ValidationError_Code <$> rule) = Some "max-length" ∧
  r.1 = Some (errorString "key: must not be empty") ∧
  r.1 ≠ (fmt_Errorf ∘ ValidationError_Error <$> rule).
Proof.
  vm_compute. repeat split; discriminate.
Qed.

(** Length is [len], which counts bytes: a key of 513 two-byte runes is
    refused by the max-length rule. *)
Example multibyte_key_counts_bytes :
  (ValidatedStore_Put (NewWithDefaultValidators (spyStore mapStore))
     (accentKey 513) (Some [Byte.x00]) (∅, [])).1
  = Some (errorString "key: must be at most 1024 characters, got 1026").
Proof. vm_compute. reflexivity. Qed.

(** Likewise a value of 100 MiB and one byte, offered with the empty key, is
    rejected with the not-empty rule's error: the value rules only run once
    the key has passed. *)
Example large_value_with_empty_key :
  let value : bytes := Some (replicate (Z.to_nat (100 * 1024 * 1024 + 1)) Byte.x00) in
  let r := ValidatedStore_Put (NewWithDefaultValidators (spyStore mapStore))
             EmptyString value (∅, []) in
  100 * 1024 * 1024 < len_bytes value ∧
  r = (Some (errorString "key: must not be empty"), (∅, [])).
Proof.
  intros value r. split.
  - unfold value, len_bytes. rewrite length_replicate, Z2Nat.id; lia.
  - unfold r. rewrite default_Put. reflexivity.
Qed.

(** ** Chains *)

(** Add-order is list order: [Add] appends. *)
Lemma ValidatorChain_Add_last {W T} (vc : ValidatorChain W T) (v : Validator W T) :
  validators (ValidatorChain_Add vc v) = (validators vc ++ [v])%list.
Proof. reflexivity. Qed.

Lemma Validate_range_spy {W T} (vs : list (Validator W T)) (i : nat) (value : T)
  (ctx : Context) (errs : ValidationResult) (w : W)
  (log : list (nat * option ValidationError)) :
  ∃ entries,
    Validate_range (spyFrom i vs) value ctx errs (w, log)
    = ((Validate_range vs value ctx errs w).1,
       ((Validate_range vs value ctx errs w).2, (log ++ entries)%list)) ∧
    entries.*1 = seq i (List.length vs) ∧
    Errors (Validate_range vs value ctx errs w).1
    = (Errors errs ++ omap snd entries)%list.
Proof.
  revert i errs w log.
  induction vs as [|v rest IH]; intros i errs w log.
  - exists []. simpl. rewrite !app_nil_r. auto.
  - simpl. run. destruct (Validate v value ctx w) as [r w1].
    destruct r as [e|].
    + destruct (IH (S i) (ValidationResult_Add errs e) w1 (log ++ [(i, Some e)])%list)
        as (entries & Hrun & Hidx & Herr).
      exists ((i, Some e) :: entries).
      change (Errors (ValidationResult_Add errs e))
        with (Errors errs ++ [e])%list in Herr.
      rewrite Hrun, Herr, <- !app_assoc.
      split; [reflexivity|].
      split; [exact (f_equal (cons i) Hidx) | reflexivity].
    + destruct (IH (S i) errs w1 (log ++ [(i, None)])%list)
        as (entries & Hrun & Hidx & Herr).
      exists ((i, None) :: entries).
      rewrite Hrun, Herr, <- !app_assoc.
      split; [reflexivity|].
      split; [exact (f_equal (cons i) Hidx) | reflexivity].
Qed.

(** C3: [Validate] calls every validator of the chain once, in add-order,
    and the error list of its result is the list of the errors that the
    validators answered, in that order.  The recording chain returns what
    the chain itself returns. *)
Theorem Validate_collects_all {W T} (vc : ValidatorChain W T) (value : T)
  (ctx : Context) (w : W) :
  ∃ result w' log,
    ValidatorChain_Validate (spyChain vc) value ctx (w, []) = (result, (w', log)) ∧
    ValidatorChain_Validate vc value ctx w = (result, w') ∧
    log.*1 = seq 0 (List.length (validators vc)) ∧
    Errors result = omap snd log.
Proof.
  unfold ValidatorChain_Validate, spyChain. simpl.
  destruct (Validate_range_spy (validators vc) 0 value ctx NewValidationResult w [])
    as (entries & Hrun & Hidx & Herr).
  destruct (Validate_range (validators vc) value ctx NewValidationResult w)
    as [result w'] eqn:Hplain.
  exists result, w', entries. simpl in *. auto.
Qed.

(** With validators that have no effect, the error list is the list of
    their answers on the value. *)
Lemma Validate_range_pure {W T} (fs : list (T → Context → option ValidationError))
  (value : T) (ctx : Context) (errs : ValidationResult) (w : W) :
  Validate_range (List.map (λ f, NewValidator (pureFn f)) fs) value ctx errs w
  = ({| Errors := (Errors errs ++ omap (λ f, f value ctx) fs)%list |}, w).
Proof.
  revert errs. induction fs as [|f rest IH]; intros errs; simpl.
  - rewrite app_nil_r. destruct errs; reflexivity.
  - unfold pureFn at 1. run. destruct (f value ctx) as [e|].
    + rewrite IH. simpl. rewrite <- app_assoc. reflexivity.
    + apply IH.
Qed.

(** The chain [v1, v2, v3] on an input that fails [v1] and [v3] only. *)
Example Validate_first_and_third {W T} (e1 e3 : ValidationError) (value : T)
  (ctx : Context) (w : W) :
  ValidatorChain_Validate
    (NewValidatorChain
       [ NewValidator (pureFn (λ _ _, Some e1));
         NewValidator (pureFn (λ _ _, None));
         NewValidator (pureFn (λ _ _, Some e3)) ])
    value ctx w
  = ({| Errors := [e1; e3] |}, w).
Proof. reflexivity. Qed.

Lemma ValidateFirst_range_spy {W T} (vs : list (Validator W T)) (i : nat)
  (value : T) (ctx : Context) (w : W)
  (log : list (nat * option ValidationError)) :
  ∃ entries,
    ValidateFirst_range (spyFrom i vs) value ctx (w, log)
    = ((ValidateFirst_range vs value ctx w).1,
       ((ValidateFirst_range vs value ctx w).2, (log ++ entries)%list)) ∧
    match (ValidateFirst_range vs value ctx w).1 with
    | Some e =>
        ∃ k, (k < List.length vs)%nat ∧
             entries.*1 = seq i (S k) ∧
             entries.*2 = (replicate k None ++ [Some e])%list
    | None =>
        entries.*1 = seq i (List.length vs) ∧
        entries.*2 = replicate (List.length vs) None
    end.
Proof.
  revert i w log.
  induction vs as [|v rest IH]; intros i w log.
  - exists []. simpl. rewrite app_nil_r. auto.
  - simpl. run. destruct (Validate v value ctx w) as [r w1].
    destruct r as [e|].
    + exists [(i, Some e)]. simpl. split; [reflexivity|].
      exists 0%nat. repeat split. lia.
    + destruct (IH (S i) w1 (log ++ [(i, None)])%list) as (entries & Hrun & Hlog).
      exists ((i, None) :: entries). rewrite Hrun, <- app_assoc.
      split; [reflexivity|].
      destruct (ValidateFirst_range rest value ctx w1).1 as [e|].
      * destruct Hlog as (k & Hk & Hidx & Hans).
        exists (S k). split; [simpl; lia|].
        split; [exact (f_equal (cons i) Hidx) | exact (f_equal (cons None) Hans)].
      * destruct Hlog as [Hidx Hans].
        split; [exact (f_equal (cons i) Hidx) | exact (f_equal (cons None) Hans)].
Qed.

(** C4: [ValidateFirst] calls the validators in add-order.  When it returns
    an error, the calls made are those to the validators at positions
    [0..k] for some [k]: the first [k] answered nil, the last answered the
    returned error, and no validator after position [k] was called.  When
    it returns nil, every validator was called and answered nil. *)
Theorem ValidateFirst_stops_at_first_error {W T} (vc : ValidatorChain W T)
  (value : T) (ctx : Context) (w : W) :
  ∃ r w' log,
    ValidatorChain_ValidateFirst (spyChain vc) value ctx (w, []) = (r, (w', log)) ∧
    ValidatorChain_ValidateFirst vc value ctx w = (r, w') ∧
    match r with
    | Some e =>
        ∃ k, (k < List.length (validators vc))%nat ∧
             log.*1 = seq 0 (S k) ∧
             log.*2 = (replicate k None ++ [Some e])%list
    | None =>
        log.*1 = seq 0 (List.length (validators vc)) ∧
        log.*2 = replicate (List.length (validators vc)) None
    end.
Proof.
  unfold ValidatorChain_ValidateFirst, spyChain. simpl.
  destruct (ValidateFirst_range_spy (validators vc) 0 value ctx w [])
    as (entries & Hrun & Hlog).
  destruct (ValidateFirst_range (validators vc) value ctx w) as [r w'] eqn:Hplain.
  exists r, w', entries. simpl in *. auto.
Qed.

(** ** The key adapter *)

Lemma Validate_range_head {W T} (vs : list (Validator W T)) (value : T)
  (ctx : Context) (errs : ValidationResult) (w : W) :
  head (Errors (Validate_range vs value ctx errs w).1)
  = match head (Errors errs) with
    | Some e => Some e
    | None => (ValidateFirst_range vs value ctx w).1
    end.
Proof.
  revert errs w. induction vs as [|v rest IH]; intros errs w; simpl.
  - destruct (head (Errors errs)); reflexivity.
  - run. destruct (Validate v value ctx w) as [r w1].
    destruct r as [e|]; [|apply IH].
    rewrite IH. simpl. destruct (Errors errs); reflexivity.
Qed.

Lemma Validate_range_effectFree {W T} (vs : list (Validator W T)) (value : T)
  (ctx : Context) (errs : ValidationResult) (w : W) :
  (∀ v, v ∈ vs → ∀ value ctx w, (Validate v value ctx w).2 = w) →
  (Validate_range vs value ctx errs w).2 = w ∧
  (ValidateFirst_range vs value ctx w).2 = w.
Proof.
  revert errs. induction vs as [|v rest IH]; intros errs Hpure; simpl; [auto|].
  run. pose proof (Hpure v (list_elem_of_here _ _) value ctx w) as Hv.
  destruct (Validate v value ctx w) as [r w1]. simpl in Hv. subst w1.
  assert (∀ v0, v0 ∈ rest → ∀ value ctx w, (Validate v0 value ctx w).2 = w)
    as Hrest by (intros v0 Hin; apply Hpure; right; exact Hin).
  destruct r as [e|]; simpl.
  - split; [apply IH; exact Hrest | reflexivity].
  - apply IH; exact Hrest.
Qed.

Lemma StoreKeyValidator_Validate_head {W} (skv : StoreKeyValidator W)
  (key : string) (w : W) :
  StoreKeyValidator_Validate skv key w
  = (fmt_Errorf ∘ ValidationError_Error
       <$> head (Errors (ValidatorChain_Validate (chain skv) key (NewContext "key") w).1),
     (ValidatorChain_Validate (chain skv) key (NewContext "key") w).2).
Proof.
  unfold StoreKeyValidator_Validate. run.
  destruct (ValidatorChain_Validate (chain skv) key (NewContext "key") w)
    as [result w'].
  unfold ValidationResult_HasErrors. simpl.
  destruct (Errors result); reflexivity.
Qed.

(** C9: the key adapter returns what converting the result of
    [ValidateFirst] into a plain error returns: nil when [ValidateFirst]
    returns nil, and otherwise the plain error with the message of the first
    failing validator's error.  This holds for every chain.  The adapter
    runs the whole chain where [ValidateFirst] stops early, so the two leave
    the same world behind when the validators have no effect. *)
Theorem key_adapter_refines_ValidateFirst {W} (skv : StoreKeyValidator W)
  (key : string) (w : W) :
  (StoreKeyValidator_Validate skv key w).1
  = (fmt_Errorf ∘ ValidationError_Error
       <$> (ValidatorChain_ValidateFirst (chain skv) key (NewContext "key") w).1) ∧
  (StoreKeyValidator_Validate skv key w).1 = (specKeyAdapter skv key w).1 ∧
  (effectFree (chain skv) →
   StoreKeyValidator_Validate skv key w = specKeyAdapter skv key w).
Proof.
  assert ((StoreKeyValidator_Validate skv key w).1
          = (fmt_Errorf ∘ ValidationError_Error
               <$> (ValidatorChain_ValidateFirst (chain skv) key
                      (NewContext "key") w).1)) as Hres.
  { rewrite StoreKeyValidator_Validate_head. simpl.
    unfold ValidatorChain_Validate. rewrite Validate_range_head. reflexivity. }
  assert ((specKeyAdapter skv key w).1
          = (fmt_Errorf ∘ ValidationError_Error
               <$> (ValidatorChain_ValidateFirst (chain skv) key
                      (NewContext "key") w).1)) as Hspec.
  { unfold specKeyAdapter. run.
    destruct (ValidatorChain_ValidateFirst (chain skv) key (NewContext "key") w);
      reflexivity. }
  split; [exact Hres|]. split; [congruence|].
  intros Hpure.
  destruct (Validate_range_effectFree (validators (chain skv)) key
              (NewContext "key") NewValidationResult w Hpure) as [Hall Hfirst].
  apply injective_projections; [congruence|].
  rewrite StoreKeyValidator_Validate_head. simpl.
  unfold ValidatorChain_Validate. rewrite Hall.
  unfold specKeyAdapter, ValidatorChain_ValidateFirst. run.
  destruct (ValidateFirst_range (validators (chain skv)) key (NewContext "key") w)
    as [r w']. simpl in *. congruence.
Qed.

Lemma DefaultKeyValidators_effectFree {W} :
  effectFree (W := W) (chain (NewStoreKeyValidator DefaultKeyValidators)).
Proof.
  intros v Hin value ctx w. simpl in Hin.
  apply elem_of_cons in Hin as [-> | Hin]; [reflexivity|].
  apply elem_of_cons in Hin as [-> | Hin]; [reflexivity|].
  inversion Hin.
Qed.

Lemma key_adapter_refines_ValidateFirst_witness :
  StoreKeyValidator_Validate (NewStoreKeyValidator DefaultKeyValidators)
    EmptyString tt
  = specKeyAdapter (NewStoreKeyValidator DefaultKeyValidators) EmptyString tt.
Proof.
  apply (proj2 (proj2 (key_adapter_refines_ValidateFirst
                         (NewStoreKeyValidator DefaultKeyValidators)
                         EmptyString tt))).
  apply DefaultKeyValidators_effectFree.
Defined.

(** The calls differ: on the blank key the adapter calls both default rules,
    [ValidateFirst] only the first. *)
Example key_adapter_calls_whole_chain :
  let vc := spyChain (W := unit) (NewValidatorChain DefaultKeyValidators) in
  ((StoreKeyValidator_Validate {| chain := vc |} " " (tt, [])).2.2).*1 = [0; 1]%nat ∧
  ((specKeyAdapter {| chain := vc |} " " (tt, [])).2.2).*1 = [0]%nat.
Proof. split; reflexivity. Qed.

(** ** Pattern *)

(** C10: [Pattern] compiles when it is called.  For a pattern that [Compile]
    refuses the call panics: there is no validator and no error value.  For
    a pattern that compiles the call returns a validator whose [Validate]
    answers for every input, without effect: nil when the compiled
    expression matches, a pattern-mismatch error when it does not. *)
Theorem Pattern_compiles_eagerly `{RegexpEngine} {W} (pattern : string) :
  match Compile pattern with
  | inr err => ∃ msg, Pattern (W := W) pattern = Panics msg
  | inl re =>
      ∃ v, Pattern (W := W) pattern = Returns v ∧
           ∀ value ctx w,
             ∃ r, Validate v value ctx w = (r, w) ∧
                  (r = None ↔ MatchString re value = true) ∧
                  (ValidationError_Code <$> r)
                  = (if MatchString re value then None
                     else Some "pattern-mismatch")
  end.
Proof.
  unfold Pattern, MustCompile.
  destruct (Compile pattern) as [re|err].
  - eexists. split; [reflexivity|].
    intros value ctx w. unfold pureFn. run.
    destruct (MatchString re value); eexists; repeat split; auto; discriminate.
  - eexists. reflexivity.
Qed.

Example Pattern_panics_on_open_paren :
  Pattern (H := literalEngine) (W := unit) "("
  = Panics "regexp: Compile(`(`): error parsing regexp: missing closing ): `(`".
Proof. reflexivity. Qed.

Example Pattern_literal :
  ∃ v, Pattern (H := literalEngine) (W := unit) "user:" = Returns v ∧
       (Validate v "user:1" (NewContext "key") tt).1 = None ∧
       (ValidationError_Code <$> (Validate v "order:1" (NewContext "key") tt).1)
       = Some "pattern-mismatch".
Proof. eexists. repeat split. Qed.

(** ** Context.WithMetadata *)

Lemma copy_entries (m : gmap string any) :
  map_fold (λ k v (acc : gmap string any), <[k := v]> acc) ∅ m = m.
Proof.
  apply (map_fold_weak_ind (λ acc m, acc = m)); [reflexivity|].
  intros i x m' r _ ->. reflexivity.
Qed.

Lemma Context_WithMetadata_insert (c : Context) (key : string) (value : any) :
  Context_WithMetadata c key value
  = {| Target := Target c; Metadata := <[key := value]> (Metadata c) |}.
Proof. unfold Context_WithMetadata. rewrite copy_entries. reflexivity. Qed.

Lemma copy_entries_heap (h : Heap.heap) (l : Heap.loc) (m : gmap string any) :
  map_fold (λ k v acc, Heap.assign l k v acc) (<[l := ∅]> h) m = <[l := m]> h.
Proof.
  apply (map_fold_weak_ind (λ acc m, acc = <[l := m]> h)); [reflexivity|].
  intros i x m' r _ ->. unfold Heap.assign. apply alter_insert_eq.
Qed.

(** What a call of [WithMetadata] does to the heap: one new map, at the
    first free location, holding the receiver's entries and the new one. *)
Lemma WithMetadata_run (h : Heap.heap) (c : Heap.Context) (key : string)
  (value : any) :
  Heap.valid h c →
  Heap.WithMetadata c key value h
  = ({| Heap.Target := Heap.Target c; Heap.Metadata := Some (fresh (dom h)) |},
     <[fresh (dom h) := <[key := value]> (Heap.entries h (Heap.Metadata c))]> h).
Proof.
  intros Hvalid. unfold Heap.WithMetadata, Heap.make. f_equal.
  destruct (Heap.Metadata c) as [l|] eqn:Hl.
  - assert (Heap.entries (<[fresh (dom h) := ∅]> h) (Some l)
            = Heap.entries h (Some l)) as ->.
    { unfold Heap.entries. rewrite lookup_insert_ne; [reflexivity|].
      intros <-. unfold Heap.valid in Hvalid. rewrite Hl in Hvalid.
      pose proof (is_fresh (dom h)) as Hf. apply not_elem_of_dom in Hf.
      destruct Hvalid; congruence. }
    rewrite copy_entries_heap. unfold Heap.assign. apply alter_insert_eq.
  - unfold Heap.assign. apply alter_insert_eq.
Qed.

(** X25: read through the heap, the context that [WithMetadata] returns is
    the receiver's view with the entry added: the copy made entry by entry
    loses and adds nothing. *)
Lemma WithMetadata_view (h : Heap.heap) (c : Heap.Context) (key : string)
  (value : any) :
  Heap.valid h c →
  view (Heap.WithMetadata c key value h).2 (Heap.WithMetadata c key value h).1
  = Context_WithMetadata (view h c) key value.
Proof.
  intros Hvalid. rewrite WithMetadata_run by exact Hvalid.
  rewrite Context_WithMetadata_insert. unfold view. simpl.
  rewrite lookup_insert_eq. reflexivity.
Qed.

(** C5: [WithMetadata] returns a context with the receiver's target and a
    map that did not exist before; that map holds the receiver's entries
    with [key] bound to [value] (so [key] reads [value] and every other key
    reads what the receiver has), and every map that existed before the
    call, the receiver's among them, is as it was. *)
Theorem WithMetadata_copies (h : Heap.heap) (c : Heap.Context) (key : string)
  (value : any) (Hvalid : Heap.valid h c) :
  ∃ c' h' l',
    Heap.WithMetadata c key value h = (c', h') ∧
    Heap.Target c' = Heap.Target c ∧
    Heap.Metadata c' = Some l' ∧
    h !! l' = None ∧
    Heap.entries h' (Some l')
    = <[key := value]> (Heap.entries h (Heap.Metadata c)) ∧
    Heap.entries h' (Some l') !! key = Some value ∧
    (∀ k, k ≠ key →
       Heap.entries h' (Some l') !! k = Heap.entries h (Heap.Metadata c) !! k) ∧
    (∀ l, is_Some (h !! l) → h' !! l = h !! l) ∧
    Heap.entries h' (Heap.Metadata c) = Heap.entries h (Heap.Metadata c) ∧
    size (Heap.entries h' (Heap.Metadata c))
    = size (Heap.entries h (Heap.Metadata c)).
Proof.
  set (l' := fresh (dom h)).
  assert (h !! l' = None) as Hfresh
    by (apply not_elem_of_dom, is_fresh).
  assert (∀ l, is_Some (h !! l) → l ≠ l') as Hne
    by (intros l [x Hx] ->; congruence).
  set (m := Heap.entries h (Heap.Metadata c)).
  assert (Heap.WithMetadata c key value h
          = ({| Heap.Target := Heap.Target c; Heap.Metadata := Some l' |},
             <[l' := <[key := value]> m]> h)) as Hrun
    by (apply WithMetadata_run; exact Hvalid).
  assert (∀ l, is_Some (h !! l) →
               (<[l' := <[key := value]> m]> h) !! l = h !! l) as Hframe.
  { intros l Hl. apply lookup_insert_ne. intros <-. exact (Hne _ Hl eq_refl). }
  assert (Heap.entries (<[l' := <[key := value]> m]> h) (Heap.Metadata c) = m)
    as Hsame.
  { unfold m, Heap.entries. unfold Heap.valid in Hvalid.
    destruct (Heap.Metadata c) as [l|]; [|reflexivity].
    rewrite Hframe; [reflexivity | exact Hvalid]. }
  eexists _, _, l'. split; [exact Hrun|]. simpl.
  rewrite lookup_insert_eq. simpl.
  repeat split; try assumption.
  - apply lookup_insert_eq.
  - intros k Hk. apply lookup_insert_ne. congruence.
  - rewrite Hsame. reflexivity.
Qed.

Lemma WithMetadata_copies_witness :
  let h : Heap.heap := {[ 1%positive := {[ "rule" := AnyString "old" ]} ]} in
  let c := {| Heap.Target := "email"; Heap.Metadata := Some 1%positive |} in
  ∃ c' h' l',
    Heap.WithMetadata c "rule" (AnyString "new") h = (c', h') ∧
    Heap.entries h' (Some l') !! "rule" = Some (AnyString "new") ∧
    Heap.entries h' (Heap.Metadata c) !! "rule" = Some (AnyString "old").
Proof.
  intros h c.
  destruct (WithMetadata_copies h c "rule" (AnyString "new"))
    as (c' & h' & l' & Hrun & _ & _ & _ & _ & Hnew & _ & _ & Hold & _).
  - simpl. eexists. reflexivity.
  - exists c', h', l'. rewrite Hold. repeat split; assumption.
Defined.

(** ** The default rules over plain functions *)

(** X24: the same gate for the decorator whose default rules are the
    functions of [validators.go]; here the non-empty rule refuses the empty
    key only.  [Put] returns the first failing rule's error and leaves the
    world alone, or is the inner store's [Put]. *)
Lemma Functional_default_Put {W} (s : Store W) (key : string) (value : bytes)
  (w : W) :
  Functional.Put (Functional.NewWithDefaultValidators s) key value w
  = if String.eqb key EmptyString then
      (Some (errorString "key cannot be empty"), w)
    else if len key >? 1024 then
      (Some (errorString ("key too long: maximum " +:+ fmt_d 1024
                          +:+ " characters, got " +:+ fmt_d (len key))), w)
    else if len_bytes value >? ValueMaxSize then
      (Some (errorString ("value too large: maximum " +:+ fmt_d ValueMaxSize
                          +:+ " bytes, got " +:+ fmt_d (len_bytes value))), w)
    else Put s key value w.
Proof.
  unfold Functional.Put, Functional.NewWithDefaultValidators. simpl.
  unfold Functional.ValidateNonEmptyKey, Functional.ValidateKeyLength,
    Functional.ValidateValueSize. run.
  destruct (String.eqb key EmptyString); [reflexivity|].
  destruct (len key >? 1024); [reflexivity|].
  destruct (len_bytes value >? ValueMaxSize); reflexivity.
Qed.

(** A valid entry goes through the default store and can be read back. *)
Example put_then_get :
  let f := NewWithDefaultValidators mapStore in
  let data := [Byte.x64; Byte.x61; Byte.x74; Byte.x61] in
  let '(err, m) := ValidatedStore_Put f "user:1" (Some data) ∅ in
  err = None ∧ (ValidatedStore_Get f "user:1" m).1 = (Some data, true, None).
Proof. vm_compute. split; reflexivity. Qed.

(** * Further properties *)

(** ** Chains: Add, the first error, names *)




(** X2: for every chain, the first error that [Validate] collects is the
    error that [ValidateFirst] returns, and [Validate] reports errors
    exactly when [ValidateFirst] returns one. *)
Theorem first_collected_is_ValidateFirst {W T} (vc : ValidatorChain W T)
  (value : T) (ctx : Context) (w : W) :
  head (Errors (ValidatorChain_Validate vc value ctx w).1)
  = (ValidatorChain_ValidateFirst vc value ctx w).1 ∧
  ValidationResult_HasErrors (ValidatorChain_Validate vc value ctx w).1
  = match (ValidatorChain_ValidateFirst vc value ctx w).1 with
    | Some _ => true
    | None => false
    end.
Proof.
  assert (head (Errors (ValidatorChain_Validate vc value ctx w).1)
          = (ValidatorChain_ValidateFirst vc value ctx w).1) as Hhead
    by exact (Validate_range_head (validators vc) value ctx NewValidationResult w).
  split; [exact Hhead|].
  rewrite <- Hhead. unfold ValidationResult_HasErrors.
  destruct (Errors (ValidatorChain_Validate vc value ctx w).1); reflexivity.
Qed.

(** X3: a name is only a label.  [GetName] returns the name given last, or
    the default for a validator that was never named, and renaming the
    validators of a chain changes nothing of what the chain computes. *)
Theorem names_do_not_matter {W T} (vs : list (Validator W T))
  (name : Validator W T → string) (v : Validator W T) (a b : string)
  (f : T → Context → M W (option ValidationError))
  (value : T) (ctx : Context) (errs : ValidationResult) (w : W) :
  Validator_GetName (Validator_WithName (Validator_WithName v a) b) = b ∧
  Validator_GetName (NewValidator f) = "unnamed-validator" ∧
  Validate_range (List.map (λ v, Validator_WithName v (name v)) vs) value ctx errs w
  = Validate_range vs value ctx errs w ∧
  ValidateFirst_range (List.map (λ v, Validator_WithName v (name v)) vs) value ctx w
  = ValidateFirst_range vs value ctx w.
Proof.
  split; [reflexivity|]. split; [reflexivity|]. split.
  - revert errs w. induction vs as [|v0 rest IH]; intros errs w; simpl; [reflexivity|].
    run. destruct (Validate v0 value ctx w) as [e w1]. destruct e; apply IH.
  - revert w. induction vs as [|v0 rest IH]; intros w; simpl; [reflexivity|].
    run. destruct (Validate v0 value ctx w) as [e w1].
    destruct e; [reflexivity | apply IH].
Qed.

(** X4: the gate of a conditional validator.  The condition is evaluated
    first; when it is false the answer is nil and the inner validator is not
    called, when it is true the inner validator is called once and its
    answer returned.  Renaming keeps the condition and the verdict. *)
Theorem condition_gates_validator {W T} (cv : ConditionalValidator W T)
  (name : string) (value : T) (ctx : Context) (w : W) :
  ConditionalValidator_Validate
    (NewConditionalValidator (λ v c, quiet (Condition cv v c))
       (spyValidator 0 (Validator_ cv)))
    value ctx (w, [])
  = (let '(c, w1) := Condition cv value ctx w in
     if c then
       let '(r, w2) := Validate (Validator_ cv) value ctx w1 in
       (r, (w2, [(0%nat, r)]))
     else (None, (w1, []))) ∧
  ConditionalValidator_Validate (ConditionalValidator_WithName cv name) value ctx w
  = ConditionalValidator_Validate cv value ctx w.
Proof.
  split; [|reflexivity].
  unfold ConditionalValidator_Validate, quiet. run.
  destruct (Condition cv value ctx w) as [c w1]. destruct c; reflexivity.
Qed.

(** ** ValidationResult.Error *)

Lemma append_assoc (a b c : string) : (a +:+ b) +:+ c = a +:+ (b +:+ c).
Proof.
  induction a as [|x a IH]; [reflexivity|].
  exact (f_equal (String x) IH).
Qed.

Lemma concat_snoc (sep : string) (l : list string) (x : string) :
  String.concat sep (l ++ [x])%list
  = match l with
    | [] => x
    | _ :: _ => String.concat sep l +:+ sep +:+ x
    end.
Proof.
  induction l as [|a l IH]; [reflexivity|].
  destruct l as [|b l]; [reflexivity|].
  change (String.concat sep ((a :: b :: l) ++ [x])%list)
    with (a +:+ sep +:+ String.concat sep ((b :: l) ++ [x])%list).
  rewrite IH.
  change (String.concat sep (a :: b :: l))
    with (a +:+ sep +:+ String.concat sep (b :: l)).
  rewrite !append_assoc. reflexivity.
Qed.

(** X5: the message of a result.  An empty result prints as
    [validation failed]; adding an error to an empty result gives that
    error's message, and adding one to a non-empty result appends [; ] and
    the error's message to what the result printed before. *)
Theorem Error_after_Add (r : ValidationResult) (e : ValidationError) :
  ValidationResult_Error NewValidationResult = "validation failed" ∧
  ValidationResult_Error (ValidationResult_Add r e)
  = if ValidationResult_HasErrors r
    then ValidationResult_Error r +:+ "; " +:+ ValidationError_Error e
    else ValidationError_Error e.
Proof.
  split; [reflexivity|].
  unfold ValidationResult_Error, ValidationResult_HasErrors, ValidationResult_Add,
    strings_Join.
  cbn [Errors]. rewrite List.length_app, List.map_app. cbn [List.length List.map].
  rewrite concat_snoc.
  destruct (Errors r) as [|e0 l]; [reflexivity|].
  cbn [List.map List.length].
  replace (Z.of_nat (S (List.length l) + 1) =? 0) with false
    by (symmetry; apply Z.eqb_neq; lia).
  replace (Z.of_nat (S (List.length l)) =? 0) with false
    by (symmetry; apply Z.eqb_neq; lia).
  replace (0 <? Z.of_nat (S (List.length l))) with true
    by (symmetry; apply Z.ltb_lt; lia).
  reflexivity.
Qed.

(** ** String and numeric validators *)

(** X6: [Length min max] rejects a string exactly when [MinLength min] or
    [MaxLength max] rejects it, always with the code [length-range], and has
    no effect. *)
Theorem Length_is_MinLength_and_MaxLength {W} (min max : Z) (value : string)
  (ctx : Context) (w : W) :
  let r := (Validate (Length min max) value ctx w).1 in
  rejects r
  = rejects (Validate (MinLength min) value ctx w).1
    || rejects (Validate (MaxLength max) value ctx w).1 ∧
  (ValidationError_Code <$> r)
  = (if rejects r then Some "length-range" else None) ∧
  (r = None ↔ min ≤ len value ≤ max) ∧
  (Validate (Length min max) value ctx w).2 = w.
Proof.
  unfold Length, MinLength, MaxLength, pureFn. run.
  rewrite Z.gtb_ltb.
  destruct (len value <? min) eqn:Hmin; destruct (max <? len value) eqn:Hmax;
    simpl; repeat split; try discriminate; try reflexivity; intros;
    try apply Z.ltb_lt in Hmin; try apply Z.ltb_lt in Hmax;
    try apply Z.ltb_ge in Hmin; try apply Z.ltb_ge in Hmax; lia.
Qed.

Lemma stripRune_asciiSpace (c : ascii) (l : list ascii) :
  asciiSpace c = true → stripRune spaceRunes (c :: l) = Some l.
Proof.
  destruct c as [[] [] [] [] [] [] [] []]; intros H; try discriminate H;
    reflexivity.
Qed.

Lemma trimLeft_asciiSpace (l : list ascii) (fuel : nat) :
  forallb asciiSpace l = true → (List.length l ≤ fuel)%nat →
  trimLeft spaceRunes fuel l = [].
Proof.
  revert fuel. induction l as [|c l IH]; intros fuel Hall Hfuel.
  - destruct fuel; reflexivity.
  - simpl in Hall. apply andb_true_iff in Hall as [Hc Hl].
    destruct fuel as [|fuel]; [simpl in Hfuel; lia|].
    simpl in Hfuel. cbn [trimLeft]. rewrite stripRune_asciiSpace by exact Hc.
    apply IH; [exact Hl | lia].
Qed.

Lemma TrimSpace_asciiSpace (l : list ascii) :
  forallb asciiSpace l = true → TrimSpace (string_of_list_ascii l) = EmptyString.
Proof.
  intros Hall. unfold TrimSpace.
  rewrite list_ascii_of_string_of_list_ascii.
  rewrite trimLeft_asciiSpace by (exact Hall || reflexivity).
  reflexivity.
Qed.

(** X7: a key made of ASCII white space only (tabs, line feeds, vertical
    tabs, form feeds, carriage returns, spaces), of any length, is refused
    by the default store with the not-empty rule's error on [Get], [Put]
    and [Delete], and the inner store receives no call. *)
Theorem blank_key_refused {W} (s : Store W) (l : list ascii) (value : bytes)
  (w : W) :
  forallb asciiSpace l = true →
  let f := NewWithDefaultValidators (spyStore s) in
  let key := string_of_list_ascii l in
  let e := errorString "key: must not be empty" in
  ValidatedStore_Get f key (w, []) = ((None, false, Some e), (w, [])) ∧
  ValidatedStore_Put f key value (w, []) = (Some e, (w, [])) ∧
  ValidatedStore_Delete f key (w, []) = (Some e, (w, [])).
Proof.
  intros Hall f key e.
  apply failed_key_adapter_stops.
  unfold f. simpl. rewrite default_key_adapter. unfold keyVerdict, key.
  rewrite TrimSpace_asciiSpace by exact Hall. reflexivity.
Qed.

Lemma blank_key_refused_witness :
  ValidatedStore_Put (NewWithDefaultValidators (spyStore mapStore))
    (string_of_list_ascii ["009"; "010"; "013"]%char) (Some [Byte.x00]) (∅, [])
  = (Some (errorString "key: must not be empty"), (∅, [])).
Proof.
  apply (blank_key_refused mapStore ["009"; "010"; "013"]%char (Some [Byte.x00]) ∅).
  reflexivity.
Defined.

(** X8: [NumericRange min max] rejects a number exactly when [Min min] or
    [Max max] rejects it, that is when it lies outside [min..max], and the
    error has the code [numeric-range]. *)
Theorem NumericRange_is_Min_and_Max {W} (min max value : Z) (ctx : Context)
  (w : W) :
  let r := (Validate (NumericRange min max) value ctx w).1 in
  rejects r
  = rejects (Validate (Min min) value ctx w).1
    || rejects (Validate (Max max) value ctx w).1 ∧
  (ValidationError_Code <$> r)
  = (if rejects r then Some "numeric-range" else None) ∧
  (r = None ↔ min ≤ value ≤ max).
Proof.
  unfold NumericRange, Min, Max, pureFn. run.
  rewrite Z.gtb_ltb.
  destruct (value <? min) eqn:Hmin; destruct (max <? value) eqn:Hmax;
    simpl; repeat split; try discriminate; try reflexivity; intros;
    try apply Z.ltb_lt in Hmin; try apply Z.ltb_lt in Hmax;
    try apply Z.ltb_ge in Hmin; try apply Z.ltb_ge in Hmax; lia.
Qed.

(** X9: [Positive] rejects the numbers that [NonNegative] rejects and zero,
    and nothing else; their codes are [non-positive] and [non-negative]. *)
Theorem Positive_is_NonNegative_and_nonzero {W} (value : Z) (ctx : Context)
  (w : W) :
  let p := (Validate Positive value ctx w).1 in
  let n := (Validate NonNegative value ctx w).1 in
  rejects p = rejects n || (value =? 0) ∧
  (ValidationError_Code <$> p) = (if rejects p then Some "non-positive" else None) ∧
  (ValidationError_Code <$> n) = (if rejects n then Some "non-negative" else None) ∧
  (p = None ↔ 0 < value) ∧
  (n = None ↔ 0 ≤ value).
Proof.
  unfold Positive, NonNegative, pureFn. run.
  destruct (Z.leb_spec value 0); destruct (Z.ltb_spec value 0);
    destruct (Z.eqb_spec value 0); try (exfalso; lia);
    simpl; repeat split; intros; first [discriminate | reflexivity | lia].
Qed.

(** ** The value adapter *)

Lemma value_range_spy {W} (fs : list (ValueValidatorFunc W)) (i : nat)
  (key : string) (value : bytes) (ctx : Context) (w : W)
  (log : list (nat * Context * option ValidationError)) :
  ∃ entries,
    value_range (spyValueRulesFrom i fs) key value ctx (w, log)
    = ((value_range fs key value ctx w).1,
       ((value_range fs key value ctx w).2, (log ++ entries)%list)) ∧
    entries.*1.*2 = replicate (List.length entries) ctx ∧
    match (value_range fs key value ctx w).1 with
    | Some e =>
        ∃ k ve, (k < List.length fs)%nat ∧
                entries.*1.*1 = seq i (S k) ∧
                entries.*2 = (replicate k None ++ [Some ve])%list ∧
                e = fmt_Errorf (ValidationError_Error ve)
    | None =>
        entries.*1.*1 = seq i (List.length fs) ∧
        entries.*2 = replicate (List.length fs) None
    end.
Proof.
  revert i w log.
  induction fs as [|f rest IH]; intros i w log.
  - exists []. simpl. rewrite app_nil_r. auto.
  - simpl. unfold spyValueRule at 1. run.
    destruct (f key value ctx w) as [r w1].
    destruct r as [ve|].
    + exists [(i, ctx, Some ve)]. simpl. split; [reflexivity|].
      split; [reflexivity|].
      exists 0%nat, ve. repeat split. lia.
    + destruct (IH (S i) w1 (log ++ [(i, ctx, None)])%list)
        as (entries & Hrun & Hctx & Hlog).
      exists ((i, ctx, None) :: entries). rewrite Hrun, <- app_assoc.
      split; [reflexivity|].
      split; [exact (f_equal (cons ctx) Hctx)|].
      destruct (value_range rest key value ctx w1).1 as [e|].
      * destruct Hlog as (k & ve & Hk & Hidx & Hans & He).
        exists (S k), ve. split; [simpl; lia|].
        split; [exact (f_equal (cons i) Hidx)|].
        split; [exact (f_equal (cons None) Hans) | exact He].
      * destruct Hlog as [Hidx Hans].
        split; [exact (f_equal (cons i) Hidx) | exact (f_equal (cons None) Hans)].
Qed.

(** X10: the value adapter calls its rules in order and stops at the first
    that answers an error, which it returns as a plain error with that
    error's message; when it returns nil every rule was called and answered
    nil.  Every rule is given the same context: target [value], with the
    key under [key] as only metadata. *)
Theorem value_adapter_stops_at_first_error {W} (svv : StoreValueValidator W)
  (key : string) (value : bytes) (w : W) :
  ∃ r w' log,
    StoreValueValidator_Validate
      (NewStoreValueValidator (spyValueRulesFrom 0 (value_validators svv)))
      key value (w, [])
    = (r, (w', log)) ∧
    StoreValueValidator_Validate svv key value w = (r, w') ∧
    log.*1.*2 = replicate (List.length log) (valueContext key) ∧
    match r with
    | Some e =>
        ∃ k ve, (k < List.length (value_validators svv))%nat ∧
                log.*1.*1 = seq 0 (S k) ∧
                log.*2 = (replicate k None ++ [Some ve])%list ∧
                e = fmt_Errorf (ValidationError_Error ve)
    | None =>
        log.*1.*1 = seq 0 (List.length (value_validators svv)) ∧
        log.*2 = replicate (List.length (value_validators svv)) None
    end.
Proof.
  unfold StoreValueValidator_Validate. simpl.
  rewrite Context_WithMetadata_insert. simpl.
  change (<["key" := AnyString key]> (∅ : gmap string any))
    with ({["key" := AnyString key]} : gmap string any).
  fold (valueContext key).
  destruct (value_range_spy (value_validators svv) 0 key value (valueContext key) w [])
    as (entries & Hrun & Hctx & Hlog).
  destruct (value_range (value_validators svv) key value (valueContext key) w)
    as [r w'] eqn:Hplain.
  exists r, w', entries. simpl in *. auto.
Qed.

(** ** The decorator when validation passes *)

(** X11: when the validators pass, the decorator hands the call to the
    inner store and returns what the inner store returns: [Get] and
    [Delete] after the key validator, [Put] after the key validator and
    then the value validator, each called once. *)
Theorem passed_validation_delegates {W} (s : Store W)
  (kv : Functional.KeyValidator W) (vv : Functional.ValueValidator W)
  (key : string) (value : bytes) (w w1 : W) :
  kv key w = (None, w1) →
  let f := Functional.New (spyStore s) (spyKey kv) (spyValue vv) in
  Functional.Get f key (w, [])
  = (let '(r, w2) := Get s key w1 in
     (r, (w2, [CallKeyValidator key; CallGet key]))) ∧
  Functional.Delete f key (w, [])
  = (let '(r, w2) := Delete s key w1 in
     (r, (w2, [CallKeyValidator key; CallDelete key]))) ∧
  (∀ w2, vv key value w1 = (None, w2) →
     Functional.Put f key value (w, [])
     = (let '(r, w3) := Put s key value w2 in
        (r, (w3, [CallKeyValidator key; CallValueValidator key value;
                  CallPut key value])))).
Proof.
  intros Hk f. unfold f, Functional.Get, Functional.Delete, Functional.Put,
    spyKey, spyValue. run. rewrite Hk. simpl.
  split; [destruct (Get s key w1); reflexivity|].
  split; [destruct (Delete s key w1); reflexivity|].
  intros w2 Hv. rewrite Hv. simpl. destruct (Put s key value w2); reflexivity.
Qed.

Lemma passed_validation_delegates_witness :
  let W := gmap string (list Byte.byte) in
  let yes : Functional.KeyValidator W := λ key, mret None in
  let big : Functional.ValueValidator W := Functional.ValidateValueSize 10 in
  Functional.Put
    (Functional.New (spyStore mapStore) (spyKey yes) (spyValue big))
    "k" (Some [Byte.x00]) (∅, [])
  = (None, ({[ "k" := [Byte.x00] ]},
            [CallKeyValidator "k"; CallValueValidator "k" (Some [Byte.x00]);
             CallPut "k" (Some [Byte.x00])])).
Proof.
  intros W yes big.
  apply (proj2 (proj2 (passed_validation_delegates mapStore yes big "k"
                         (Some [Byte.x00]) ∅ ∅ eq_refl)) ∅).
  reflexivity.
Defined.

Lemma default_Get {W} (s : Store W) (key : string) (w : W) :
  ValidatedStore_Get (NewWithDefaultValidators s) key w
  = match keyVerdict key with
    | Some e => ((None, false, Some e), w)
    | None => Get s key w
    end.
Proof.
  unfold ValidatedStore_Get, NewWithDefaultValidators. simpl.
  unfold mbind, M_bind. rewrite default_key_adapter.
  destruct (keyVerdict key); reflexivity.
Qed.

Lemma default_Delete {W} (s : Store W) (key : string) (w : W) :
  ValidatedStore_Delete (NewWithDefaultValidators s) key w
  = match keyVerdict key with
    | Some e => (Some e, w)
    | None => Delete s key w
    end.
Proof.
  unfold ValidatedStore_Delete, NewWithDefaultValidators. simpl.
  unfold mbind, M_bind. rewrite default_key_adapter.
  destruct (keyVerdict key); reflexivity.
Qed.

(** X12: on the default store [Get] and [Delete] reach the inner store
    exactly when the key is not blank and has at most 1024 bytes, whatever
    else the key contains; otherwise they return the plain error of the
    first failing key rule and the inner store receives no call. *)
Theorem default_Get_Delete_gate {W} (s : Store W) (key : string) (w : W) :
  let f := NewWithDefaultValidators (spyStore s) in
  let ok := negb (String.eqb (TrimSpace key) EmptyString) && (len key <=? 1024) in
  ValidatedStore_Get f key (w, [])
  = (if ok then let '(r, w') := Get s key w in (r, (w', [CallGet key]))
     else ((None, false, keyVerdict key), (w, []))) ∧
  ValidatedStore_Delete f key (w, [])
  = (if ok then let '(r, w') := Delete s key w in (r, (w', [CallDelete key]))
     else (keyVerdict key, (w, []))) ∧
  (ok = false ↔ is_Some (keyVerdict key)).
Proof.
  intros f ok. unfold f, ok. rewrite default_Get, default_Delete.
  unfold keyVerdict. rewrite Z.leb_antisym, Z.gtb_ltb.
  destruct (String.eqb (TrimSpace key) EmptyString); simpl.
  { repeat split; eauto. }
  destruct (1024 <? len key); simpl.
  { repeat split; eauto. }
  unfold logged.
  split; [destruct (Get s key w); reflexivity|].
  split; [destruct (Delete s key w); reflexivity|].
  split; [discriminate | intros [x Hx]; discriminate].
Qed.

(** X13: decorators stack.  A default store wrapped in a second default
    decorator behaves as the single one on every operation. *)
Theorem default_over_default {W} (s : Store W) (key : string) (value : bytes)
  (w : W) :
  let one := NewWithDefaultValidators s in
  let two := NewWithDefaultValidators (asStore one) in
  ValidatedStore_Get two key w = ValidatedStore_Get one key w ∧
  ValidatedStore_Put two key value w = ValidatedStore_Put one key value w ∧
  ValidatedStore_Delete two key w = ValidatedStore_Delete one key w ∧
  ValidatedStore_Scan two key w = ValidatedStore_Scan one key w ∧
  ValidatedStore_Close two w = ValidatedStore_Close one w.
Proof.
  intros one two. unfold two, one.
  rewrite (default_Get (asStore _)), (default_Put (asStore _)),
    (default_Delete (asStore _)).
  cbn [asStore Get Put Delete].
  rewrite default_Get, default_Put, default_Delete.
  repeat split.
  - destruct (keyVerdict key); reflexivity.
  - destruct (keyVerdict key); [reflexivity|].
    destruct (valueVerdict value); reflexivity.
  - destruct (keyVerdict key); reflexivity.
Qed.

(** ** Composed functions and the tenant stores *)

(** X14: composed validators nest.  Composing the rules of two lists is the
    same as composing the two compositions, and the empty composition
    accepts everything without effect. *)
Theorem Compose_nests {W} (a b : list (Functional.KeyValidator W))
  (a' b' : list (Functional.ValueValidator W)) (key : string) (value : bytes)
  (w : W) :
  Functional.ComposeKeyValidators (a ++ b)%list key w
  = Functional.ComposeKeyValidators
      [ Functional.ComposeKeyValidators a; Functional.ComposeKeyValidators b ]
      key w ∧
  Functional.ComposeValueValidators (a' ++ b')%list key value w
  = Functional.ComposeValueValidators
      [ Functional.ComposeValueValidators a';
        Functional.ComposeValueValidators b' ]
      key value w ∧
  Functional.ComposeKeyValidators [] key w = (None, w) ∧
  Functional.ComposeValueValidators [] key value w = (None, w).
Proof.
  split; [|split; [|split; reflexivity]].
  - revert w. induction a as [|v rest IH]; intros w.
    + simpl. run. destruct (Functional.ComposeKeyValidators b key w) as [r w1].
      destruct r; reflexivity.
    + simpl. run. destruct (v key w) as [r w1].
      destruct r; [reflexivity|]. rewrite IH. simpl. run. reflexivity.
  - revert w. induction a' as [|v rest IH]; intros w.
    + simpl. run.
      destruct (Functional.ComposeValueValidators b' key value w) as [r w1].
      destruct r; reflexivity.
    + simpl. run. destruct (v key value w) as [r w1].
      destruct r; [reflexivity|]. rewrite IH. simpl. run. reflexivity.
Qed.

Lemma tier_log {W} (s : Store W) (n m : Z)
  (extra : list (string → bool)) (key : string) (value : bytes) (w : W) :
  let rule (p : string → bool) : Functional.KeyValidator (W * list Call) :=
    λ key, mret (if p key then Some (errorString "refused") else None) in
  (Put (Functional_asStore
          (Functional.New (spyStore s)
             (Functional.ComposeKeyValidators
                ([ Functional.ValidateNonEmptyKey; Functional.ValidateKeyLength n ]
                 ++ List.map rule extra)%list)
             (Functional.ComposeValueValidators [ Functional.ValidateValueSize m ])))
     key value (w, [])).2.2
  = if negb (String.eqb key EmptyString) && (len key <=? n)
       && forallb (λ p, negb (p key)) extra && (len_bytes value <=? m)
    then [CallPut key value] else [].
Proof.
  intros rule. simpl. unfold Functional.Put. simpl.
  unfold Functional.ValidateNonEmptyKey, Functional.ValidateKeyLength,
    Functional.ValidateValueSize. run.
  rewrite !Z.leb_antisym, !Z.gtb_ltb.
  destruct (String.eqb key EmptyString); [reflexivity|].
  destruct (n <? len key); [reflexivity|]. simpl.
  induction extra as [|p rest IH]; simpl.
  - destruct (m <? len_bytes value); [reflexivity|]. simpl.
    destruct (Put s key value w); reflexivity.
  - unfold rule at 1. run. destruct (p key); [reflexivity|]. exact IH.
Qed.

(** X15: the tenant tiers nest.  Whatever [Put] the free tier lets through
    to the base store the basic tier lets through, and whatever the basic
    tier lets through the premium tier lets through. *)
Theorem tenant_tiers_nest {W} (s : Store W) (key : string) (value : bytes)
  (w : W) :
  let reaches (st : Store (W * list Call)) :=
    (Put st key value (w, [])).2.2 = [CallPut key value] in
  (reaches (createFreeTenantStore (spyStore s)) →
   reaches (createBasicTenantStore (spyStore s))) ∧
  (reaches (createBasicTenantStore (spyStore s)) →
   reaches (createPremiumTenantStore (spyStore s))).
Proof.
  intros reaches. unfold reaches.
  assert ((Put (createBasicTenantStore (spyStore s)) key value (w, [])).2.2
          = if negb (String.eqb key EmptyString) && (len key <=? 100)
               && true && (len_bytes value <=? 1 * 1024 * 1024)
            then [CallPut key value] else []) as Hbasic
    by exact (tier_log s 100 (1 * 1024 * 1024) [] key value w).
  assert ((Put (createPremiumTenantStore (spyStore s)) key value (w, [])).2.2
          = if negb (String.eqb key EmptyString) && (len key <=? 200)
               && true && (len_bytes value <=? 10 * 1024 * 1024)
            then [CallPut key value] else []) as Hpremium
    by exact (tier_log s 200 (10 * 1024 * 1024) [] key value w).
  rewrite Hbasic, Hpremium. clear Hbasic Hpremium.
  assert ((Put (createFreeTenantStore (spyStore s)) key value (w, [])).2.2
          = [CallPut key value] →
          negb (String.eqb key EmptyString) && (len key <=? 50)
          && (len_bytes value <=? 100 * 1024) = true) as Hf.
  { unfold createFreeTenantStore. simpl. unfold Functional.Put. simpl.
    unfold Functional.ValidateNonEmptyKey, Functional.ValidateKeyLength,
      Functional.ValidateValueSize. run.
    rewrite !Z.leb_antisym, !Z.gtb_ltb.
    destruct (String.eqb key EmptyString); [discriminate|].
    destruct (50 <? len key); [discriminate|]. simpl.
    destruct (contains "premium" key || contains "enterprise" key);
      [discriminate|].
    destruct (100 * 1024 <? len_bytes value); [discriminate | reflexivity]. }
  rewrite !andb_true_r.
  split.
  - intros H. apply Hf in H.
    apply andb_true_iff in H as [H Hv]. apply andb_true_iff in H as [Hk Hl].
    apply Z.leb_le in Hv, Hl. rewrite Hk. simpl.
    replace (len key <=? 100) with true by (symmetry; apply Z.leb_le; lia).
    replace (len_bytes value <=? 1 * 1024 * 1024) with true
      by (symmetry; apply Z.leb_le; lia).
    reflexivity.
  - destruct (negb (String.eqb key EmptyString)); [|discriminate]. simpl.
    destruct (Z.leb_spec (len key) 100); [|discriminate]. simpl.
    destruct (Z.leb_spec (len_bytes value) (1 * 1024 * 1024)); [|discriminate].
    intros _.
    replace (len key <=? 200) with true by (symmetry; apply Z.leb_le; lia).
    replace (len_bytes value <=? 10 * 1024 * 1024) with true
      by (symmetry; apply Z.leb_le; lia).
    reflexivity.
Qed.

Lemma tenant_tiers_nest_witness :
  (Put (createBasicTenantStore (spyStore mapStore)) "k" (Some [Byte.x00]) (∅, [])).2.2
  = [CallPut "k" (Some [Byte.x00])].
Proof.
  apply (proj1 (tenant_tiers_nest mapStore "k" (Some [Byte.x00]) ∅)).
  reflexivity.
Defined.

(** ** MemoryStore *)

Lemma Memory_Put_then_Get_aux (d : gmap string (list Byte.byte)) (key : string)
  (value : bytes) :
  key ≠ EmptyString →
  ∃ ms,
    Put MemoryStore key value (Some d) = (None, ms) ∧
    Get MemoryStore key ms = ((Some (default [] value), true, None), ms).
Proof.
  intros Hkey. apply String.eqb_neq in Hkey.
  exists (Some (<[key := default [] value]> d)).
  simpl. unfold Memory.Put, Memory.Get. rewrite Hkey.
  rewrite lookup_insert_eq. split; reflexivity.
Qed.

(** X16: what is put can be read back.  On an open store [Put] of a
    non-empty key succeeds; a following [Get] of that key finds the value
    put (an empty slice when a nil slice was put), and [Get] of any other
    key answers as before the [Put]. *)
Theorem Memory_Put_then_Get (d : gmap string (list Byte.byte)) (key : string)
  (value : bytes) :
  key ≠ EmptyString →
  ∃ ms,
    Memory.Put key value (Some d) = (None, ms) ∧
    Memory.Get key ms = ((Some (default [] value), true, None), ms) ∧
    ∀ other, other ≠ key →
      (Memory.Get other ms).1 = (Memory.Get other (Some d)).1.
Proof.
  intros Hkey. apply String.eqb_neq in Hkey.
  exists (Some (<[key := default [] value]> d)).
  unfold Memory.Put, Memory.Get. rewrite Hkey.
  rewrite lookup_insert_eq. repeat split.
  intros other Hother. destruct (String.eqb other EmptyString); [reflexivity|].
  rewrite lookup_insert_ne by congruence.
  destruct (d !! other); reflexivity.
Qed.

Lemma Memory_Put_then_Get_witness :
  ∃ ms,
    Memory.Put "user:1" None (Some ∅) = (None, ms) ∧
    Memory.Get "user:1" ms = ((Some [], true, None), ms).
Proof.
  destruct (Memory_Put_then_Get ∅ "user:1" None) as (ms & Hput & Hget & _).
  - discriminate.
  - exists ms. split; assumption.
Defined.

(** X17: what is deleted is gone.  On an open store [Delete] of a non-empty
    key succeeds whether or not the key is present; afterwards [Get] of
    that key answers not-found without error, other keys answer as before,
    and deleting an absent key leaves the store as it was. *)
Theorem Memory_Delete_then_Get (d : gmap string (list Byte.byte)) (key : string) :
  key ≠ EmptyString →
  ∃ ms,
    Memory.Delete key (Some d) = (None, ms) ∧
    Memory.Get key ms = ((None, false, None), ms) ∧
    (∀ other, other ≠ key →
       (Memory.Get other ms).1 = (Memory.Get other (Some d)).1) ∧
    (d !! key = None → ms = Some d).
Proof.
  intros Hkey. apply String.eqb_neq in Hkey.
  exists (Some (delete key d)).
  unfold Memory.Delete, Memory.Get. rewrite Hkey.
  rewrite lookup_delete_eq. repeat split.
  - intros other Hother. destruct (String.eqb other EmptyString); [reflexivity|].
    rewrite lookup_delete_ne by congruence.
    destruct (d !! other); reflexivity.
  - intros Hnone. f_equal. apply delete_id. exact Hnone.
Qed.

Lemma Memory_Delete_then_Get_witness :
  ∃ ms,
    Memory.Delete "k" (Some {[ "k" := [Byte.x00] ]}) = (None, ms) ∧
    Memory.Get "k" ms = ((None, false, None), ms).
Proof.
  destruct (Memory_Delete_then_Get {[ "k" := [Byte.x00] ]} "k")
    as (ms & Hdel & Hget & _).
  - discriminate.
  - exists ms. split; assumption.
Defined.

(** X18: a closed store stays closed.  After [Close], which always
    succeeds, [Get], [Put] and [Delete] of a non-empty key and [Scan] of
    any prefix return the error [store is closed] and change nothing; for
    the empty key the three key operations return [key cannot be empty]
    instead, on an open store as on a closed one. *)
Theorem Memory_closed (ms : Memory.data) (key prefix : string) (value : bytes) :
  let closed := (Memory.Close ms).2 in
  (Memory.Close ms).1 = None ∧
  Memory.Close closed = (None, closed) ∧
  Memory.Scan prefix closed
  = ((None, Some (errorString "store is closed")), closed) ∧
  Memory.Get key closed
  = ((None, false,
      Some (errorString (if String.eqb key EmptyString
                         then "key cannot be empty" else "store is closed"))),
     closed) ∧
  Memory.Put key value closed
  = (Some (errorString (if String.eqb key EmptyString
                        then "key cannot be empty" else "store is closed")),
     closed) ∧
  Memory.Delete key closed
  = (Some (errorString (if String.eqb key EmptyString
                        then "key cannot be empty" else "store is closed")),
     closed) ∧
  Memory.Get EmptyString ms
  = ((None, false, Some (errorString "key cannot be empty")), ms) ∧
  Memory.Put EmptyString value ms
  = (Some (errorString "key cannot be empty"), ms) ∧
  Memory.Delete EmptyString ms
  = (Some (errorString "key cannot be empty"), ms).
Proof.
  simpl. unfold Memory.Get, Memory.Put, Memory.Delete.
  destruct (String.eqb key EmptyString); repeat split.
Qed.

Lemma prefix_empty (s : string) : String.prefix EmptyString s = true.
Proof. destruct s; reflexivity. Qed.

Lemma Memory_Scan_fold (prefix : string) (d : gmap string (list Byte.byte)) :
  map_fold (λ key value (acc : gmap string bytes),
              if String.prefix prefix key then <[key := Some value]> acc else acc)
    ∅ d
  = Some <$> filter (λ kv, String.prefix prefix kv.1 = true) d.
Proof.
  apply (map_fold_weak_ind
           (λ acc m, acc = Some <$> filter (λ kv, String.prefix prefix kv.1 = true) m)).
  - rewrite map_filter_empty, fmap_empty. reflexivity.
  - intros i x m r Hi ->.
    destruct (String.prefix prefix i) eqn:Hp.
    + rewrite map_filter_insert_True by exact Hp. rewrite fmap_insert. reflexivity.
    + rewrite map_filter_insert_False by (simpl; congruence).
      rewrite delete_id; [reflexivity|]. exact Hi.
Qed.

(** X19: [Scan] on an open store returns, without error and without
    changing the store, exactly the entries whose key starts with the
    prefix: a key is in the result with a value if and only if it is in the
    store with that value and has the prefix.  With the empty prefix that is
    every entry. *)
Theorem Memory_Scan_prefix (d : gmap string (list Byte.byte)) (prefix : string) :
  ∃ result,
    Memory.Scan prefix (Some d) = ((Some result, None), Some d) ∧
    (∀ key value,
       result !! key = Some (Some value)
       ↔ d !! key = Some value ∧ String.prefix prefix key = true) ∧
    (∀ key, result !! key ≠ Some None) ∧
    (prefix = EmptyString → result = Some <$> d).
Proof.
  exists (Some <$> filter (λ kv, String.prefix prefix kv.1 = true) d).
  split; [unfold Memory.Scan; rewrite Memory_Scan_fold; reflexivity|].
  split; [|split].
  - intros key value. rewrite lookup_fmap. split.
    + intros H. apply fmap_Some in H as (v & Hv & Heq).
      apply map_lookup_filter_Some in Hv as [Hd Hp]. simpl in Hp.
      injection Heq as ->. auto.
    + intros [Hd Hp]. apply fmap_Some. exists value. split; [|reflexivity].
      apply map_lookup_filter_Some. auto.
  - intros key H. rewrite lookup_fmap in H.
    apply fmap_Some in H as (v & _ & Heq). discriminate.
  - intros ->. f_equal. apply map_eq. intros k.
    destruct (d !! k) as [v|] eqn:Hk.
    + apply map_lookup_filter_Some. split; [exact Hk | apply prefix_empty].
    + apply map_lookup_filter_None. left. exact Hk.
Qed.

Lemma Memory_Scan_prefix_witness :
  ∃ result,
    Memory.Scan EmptyString (Some {[ "a" := [Byte.x00] ]}) 
    = ((Some result, None), Some {[ "a" := [Byte.x00] ]}) ∧
    result = Some <$> {[ "a" := [Byte.x00] ]}.
Proof.
  destruct (Memory_Scan_prefix {[ "a" := [Byte.x00] ]} EmptyString)
    as (result & Hrun & _ & _ & Hall).
  exists result. split; [exact Hrun | exact (Hall eq_refl)].
Defined.

Lemma TrimSpace_empty : TrimSpace EmptyString = EmptyString.
Proof. reflexivity. Qed.

(** X20: the default decorator over a memory store.  For a key that the
    default key rules accept and a value within the default size, on an
    open store, [Put] succeeds and a following [Get] returns the value
    put, found, without error. *)
Theorem default_Memory_round_trip (d : gmap string (list Byte.byte))
  (key : string) (value : bytes) :
  keyVerdict key = None → valueVerdict value = None →
  let f := NewWithDefaultValidators MemoryStore in
  ∃ ms,
    ValidatedStore_Put f key value (Some d) = (None, ms) ∧
    ValidatedStore_Get f key ms = ((Some (default [] value), true, None), ms).
Proof.
  intros Hk Hv f.
  assert (key ≠ EmptyString) as Hne.
  { intros ->. unfold keyVerdict in Hk. rewrite TrimSpace_empty in Hk.
    discriminate Hk. }
  destruct (Memory_Put_then_Get_aux d key value Hne) as (ms & Hput & Hget).
  exists ms. unfold f. rewrite default_Put, default_Get, Hk, Hv.
  split; assumption.
Qed.

Lemma default_Memory_round_trip_witness :
  ∃ ms,
    ValidatedStore_Put (NewWithDefaultValidators MemoryStore) "user:1"
      (Some [Byte.x64]) (Some ∅) = (None, ms) ∧
    ValidatedStore_Get (NewWithDefaultValidators MemoryStore) "user:1" ms
    = ((Some [Byte.x64], true, None), ms).
Proof.
  apply (default_Memory_round_trip ∅ "user:1" (Some [Byte.x64]));
    vm_compute; reflexivity.
Defined.

(** ** hasPrefix *)



(** ** Contexts over the heap *)

(** X22: [NewContext] returns a context with the given target whose
    metadata is a new, empty map; every map that existed is unchanged. *)
Theorem NewContext_fresh (h : Heap.heap) (target : string) :
  ∃ c h1 l,
    Heap.NewContext target h = (c, h1) ∧
    Heap.Target c = target ∧
    Heap.Metadata c = Some l ∧
    h !! l = None ∧
    Heap.entries h1 (Heap.Metadata c) = ∅ ∧
    Heap.valid h1 c ∧
    view h1 c = NewContext target ∧
    ∀ l0, is_Some (h !! l0) → h1 !! l0 = h !! l0.
Proof.
  assert (h !! fresh (dom h) = None) as Hfresh
    by (apply not_elem_of_dom, is_fresh).
  eexists _, _, (fresh (dom h)). split; [reflexivity|].
  unfold view, Heap.valid, NewContext. simpl. rewrite lookup_insert_eq. simpl.
  repeat split; eauto.
  intros l0 [x Hx]. apply lookup_insert_ne. congruence.
Qed.

(** X23: chained [WithMetadata] calls build on each other without
    touching each other.  After [c1 := c.WithMetadata(k1, v1)] and
    [c2 := c1.WithMetadata(k2, v2)], the three contexts have three
    different maps: [c2] holds the entries of [c] with both additions,
    [c1] still holds the entries of [c] with the first addition only, and
    [c] holds what it held. *)
Theorem WithMetadata_chain (h : Heap.heap) (c : Heap.Context)
  (k1 k2 : string) (v1 v2 : any) :
  Heap.valid h c →
  ∃ c1 h1 c2 h2,
    Heap.WithMetadata c k1 v1 h = (c1, h1) ∧
    Heap.WithMetadata c1 k2 v2 h1 = (c2, h2) ∧
    Heap.valid h2 c ∧ Heap.valid h2 c1 ∧ Heap.valid h2 c2 ∧
    Heap.Metadata c1 ≠ Heap.Metadata c ∧
    Heap.Metadata c2 ≠ Heap.Metadata c ∧
    Heap.Metadata c2 ≠ Heap.Metadata c1 ∧
    Heap.entries h2 (Heap.Metadata c2)
    = <[k2 := v2]> (<[k1 := v1]> (Heap.entries h (Heap.Metadata c))) ∧
    Heap.entries h2 (Heap.Metadata c1)
    = <[k1 := v1]> (Heap.entries h (Heap.Metadata c)) ∧
    Heap.entries h2 (Heap.Metadata c) = Heap.entries h (Heap.Metadata c).
Proof.
  intros Hvalid.
  set (l1 := fresh (dom h)).
  set (m := Heap.entries h (Heap.Metadata c)).
  set (h1 := <[l1 := <[k1 := v1]> m]> h).
  set (c1 := {| Heap.Target := Heap.Target c; Heap.Metadata := Some l1 |}).
  set (l2 := fresh (dom h1)).
  assert (h !! l1 = None) as Hl1 by (apply not_elem_of_dom, is_fresh).
  assert (h1 !! l2 = None) as Hl2 by (apply not_elem_of_dom, is_fresh).
  assert (h1 !! l1 = Some (<[k1 := v1]> m)) as Hh1 by apply lookup_insert_eq.
  assert (l2 ≠ l1) as Hne21 by congruence.
  assert (Heap.valid h1 c1) as Hvalid1 by (unfold Heap.valid; simpl; eauto).
  assert (Heap.entries h1 (Heap.Metadata c1) = <[k1 := v1]> m) as Hm1
    by (unfold Heap.entries; simpl; rewrite Hh1; reflexivity).
  exists c1, h1,
    {| Heap.Target := Heap.Target c1; Heap.Metadata := Some l2 |},
    (<[l2 := <[k2 := v2]> (<[k1 := v1]> m)]> h1).
  split; [apply WithMetadata_run; exact Hvalid|].
  split; [rewrite <- Hm1; apply WithMetadata_run; exact Hvalid1|].
  assert (∀ l, Heap.Metadata c = Some l → l ≠ l1 ∧ l ≠ l2 ∧ is_Some (h !! l))
    as Hc.
  { intros l Hl. unfold Heap.valid in Hvalid. rewrite Hl in Hvalid.
    destruct Hvalid as [x Hx].
    assert (l ≠ l1) by congruence.
    assert (h1 !! l = Some x) by (unfold h1; rewrite lookup_insert_ne; auto).
    repeat split; eauto. congruence. }
  unfold Heap.valid, Heap.entries. simpl.
  rewrite lookup_insert_eq, (lookup_insert_ne _ l2 l1) by exact Hne21.
  rewrite Hh1. simpl.
  destruct (Heap.Metadata c) as [l|] eqn:Hl.
  - destruct (Hc l eq_refl) as (Hn1 & Hn2 & [x Hx]).
    rewrite (lookup_insert_ne _ l2 l) by congruence.
    unfold h1. rewrite (lookup_insert_ne _ l1 l) by congruence.
    subst m. unfold Heap.entries. rewrite Hx. simpl.
    repeat split; eauto; congruence.
  - repeat split; eauto; congruence.
Qed.

Lemma WithMetadata_chain_witness :
  let c := {| Heap.Target := "field"; Heap.Metadata := None |} in
  ∃ c1 h1 c2 h2,
    Heap.WithMetadata c "initial" (AnyString "value") ∅ = (c1, h1) ∧
    Heap.WithMetadata c1 "step1" (AnyString "data") h1 = (c2, h2) ∧
    size (Heap.entries h2 (Heap.Metadata c1)) = 1%nat ∧
    Heap.entries h2 (Heap.Metadata c2)
    = <["step1" := AnyString "data"]> {[ "initial" := AnyString "value" ]}.
Proof.
  intros c.
  destruct (WithMetadata_chain ∅ c "initial" "step1" (AnyString "value")
              (AnyString "data") I)
    as (c1 & h1 & c2 & h2 & H1 & H2 & _ & _ & _ & _ & _ & _ & E2 & E1 & _).
  exists c1, h1, c2, h2. rewrite E1, E2. repeat split; assumption.
Defined.

Lemma WithMetadata_view_witness :
  let h : Heap.heap := {[ 1%positive := {[ "rule" := AnyString "old" ]} ]} in
  let c := {| Heap.Target := "email"; Heap.Metadata := Some 1%positive |} in
  view (Heap.WithMetadata c "rule" (AnyString "new") h).2
    (Heap.WithMetadata c "rule" (AnyString "new") h).1
  = Context_WithMetadata (view h c) "rule" (AnyString "new").
Proof.
  intros h c. apply WithMetadata_view. simpl. eexists. reflexivity.
Defined.

(** ** ValueContentValidator *)

(** X26: a content rule rejects exactly the values that its predicate
    refuses.  Its error has the code [value-content-invalid] and carries the
    key as metadata, and through the value adapter it becomes the plain
    error [value validation failed: ] followed by the configured text. *)
Theorem ValueContentValidator_verdict {W} (validateFn : bytes → bool)
  (errorMsg key : string) (value : bytes) (ctx : Context) (w : W) :
  let r := (ValueContentValidator validateFn errorMsg key value ctx w).1 in
  rejects r = negb (validateFn value) ∧
  (ValidationError_Code <$> r)
  = (if validateFn value then None else Some "value-content-invalid") ∧
  (r ≫= λ e, ValidationError_Metadata e !! "key")
  = (if validateFn value then None else Some (AnyString key)) ∧
  StoreValueValidator_Validate
    (NewStoreValueValidator [ValueContentValidator validateFn errorMsg])
    key value w
  = (if validateFn value then None
     else Some (errorString ("value validation failed: " +:+ errorMsg)), w).
Proof.
  unfold StoreValueValidator_Validate, ValueContentValidator. simpl. run.
  destruct (validateFn value); simpl; repeat split.
Qed.
